(** * Timers server: the live-synchronisation core of [index.js]

    A shallow embedding of the timer store operations, the timer view model,
    the WebSocket client registry ([clients]), the push functions, the two
    timer HTTP handlers, the upgrade / connection / close handlers and the
    one-second ticker, followed by the properties established about them.

    Conventions.
    - Instants ([Date]) are integers: milliseconds since the epoch.
    - A handler runs to completion on a [World]; what it returns is an
      [Outcome]: a value, or the exception with which it throws (for an
      [async] function: with which its promise rejects).
    - Calls that leave the process (a store operation, a socket send) may
      fail; whether the next one does is read from [faults].
    - The clock is read as one value during a handler run and moves only
      between runs: the milliseconds a run itself takes are not modelled.
    - The BSON constructor [ObjectId] and [toString] on object ids belong to
      the MongoDB driver and are parameters of the development. *)

From Stdlib Require Import List String Ascii ZArith NArith Bool Lia.
Import ListNotations.
Open Scope string_scope.

(** ** Data *)

(** Object ids as the store hands them out, and WebSocket handles. *)
Definition oid := N.
Definition ws := nat.

(** A document of the [timers] collection; [end_] is absent while the timer
    runs. *)
Module Timer.
Record t := mk {
  _id : oid;
  userId : oid;
  description : string;
  start : Z;
  end_ : option Z
}.
End Timer.

Module User.
Record t := mk { _id : oid; username : string; password : string }.
End User.

Module Session.
Record t := mk { userId : oid; sessionId : string }.
End Session.

(** The fields of a [TimerViewModel] instance.  A field that the constructor
    does not assign, or assigns [undefined], is [None]. *)
Module View.
Record t := mk {
  id : oid;
  userId : oid;
  description : string;
  start : Z;
  end_ : option Z;
  isActive : bool;
  progress : option Z;
  duration : option Z
}.
End View.

(** The object handed to [JSON.stringify] before a send. *)
Module Msg.
Record t := mk { type : string; timers : list View.t }.
End Msg.

(** ** The [Map] behind [clients]

    A JavaScript [Map] keeps its entries in insertion order; [set] on a key
    already present overwrites the value in place. *)
Section JsMap.
Context {V : Type}.

Fixpoint Map_get (k : string) (m : list (string * V)) : option V :=
  match m with
  | [] => None
  | (k', v) :: m' => if String.eqb k k' then Some v else Map_get k m'
  end.

Fixpoint Map_set (k : string) (v : V) (m : list (string * V)) : list (string * V) :=
  match m with
  | [] => [(k, v)]
  | (k', v') :: m' =>
      if String.eqb k k' then (k, v) :: m' else (k', v') :: Map_set k v m'
  end.

Fixpoint Map_delete (k : string) (m : list (string * V)) : list (string * V) :=
  match m with
  | [] => []
  | (k', v') :: m' =>
      if String.eqb k k' then m' else (k', v') :: Map_delete k m'
  end.

Definition Map_keys (m : list (string * V)) : list string := map fst m.
Definition Map_values (m : list (string * V)) : list V := map snd m.

(** How many entries a key has. *)
Definition Map_count (k : string) (m : list (string * V)) : nat :=
  List.length (filter (fun e => String.eqb (fst e) k) m).

End JsMap.

(** ** The world a handler runs in *)

Record Db := mkDb {
  users : list User.t;
  sessions : list Session.t;
  timers : list Timer.t;
  next_oid : oid
}.

Record World := mkWorld {
  now : Z;                          (* what [new Date()] reads *)
  faults : list bool;               (* [true]: the next external call fails *)
  db : Db;
  clients : list (string * ws);     (* [const clients = new Map()] *)
  listeners : list (ws * string);   (* open sockets, each with the [userId]
                                       its "close" listener captured *)
  next_ws : ws;                     (* next handle [handleUpgrade] creates *)
  wire : list (ws * Msg.t)          (* the [send] calls made, oldest first *)
}.

Definition set_faults (fs : list bool) (w : World) : World :=
  mkWorld (now w) fs (db w) (clients w) (listeners w) (next_ws w) (wire w).

Definition set_now (t : Z) (w : World) : World :=
  mkWorld t (faults w) (db w) (clients w) (listeners w) (next_ws w) (wire w).

Definition set_db (d : Db) (w : World) : World :=
  mkWorld (now w) (faults w) d (clients w) (listeners w) (next_ws w) (wire w).

Definition set_clients (m : list (string * ws)) (w : World) : World :=
  mkWorld (now w) (faults w) (db w) m (listeners w) (next_ws w) (wire w).

Definition set_listeners (l : list (ws * string)) (w : World) : World :=
  mkWorld (now w) (faults w) (db w) (clients w) l (next_ws w) (wire w).

Definition set_next_ws (n : ws) (w : World) : World :=
  mkWorld (now w) (faults w) (db w) (clients w) (listeners w) n (wire w).

Definition set_wire (l : list (ws * Msg.t)) (w : World) : World :=
  mkWorld (now w) (faults w) (db w) (clients w) (listeners w) (next_ws w) l.

Definition set_timers (ts : list Timer.t) (d : Db) : Db :=
  mkDb (users d) (sessions d) ts (next_oid d).

(** The store with another identity part (users and sessions). *)
Definition set_identity (us : list User.t) (ss : list Session.t) (w : World) : World :=
  set_db (mkDb us ss (timers (db w)) (next_oid (db w))) w.

(** The server right after start: nothing stored, nobody connected. *)
Definition init : World :=
  mkWorld 0 [] (mkDb [] [] [] 0%N) [] [] 0 [].

(** The messages one socket was sent. *)
Definition delivered (c : ws) (w : World) : list Msg.t :=
  map snd (filter (fun e : ws * Msg.t => Nat.eqb (fst e) c) (wire w)).

(** ** Handlers as state-and-exception computations *)

Inductive Exn :=
| TypeError        (* a property read on [undefined], a non-string handed to [cookie.parse] *)
| BSONTypeError    (* [ObjectId] applied to a string that is no object id *)
| MongoError       (* a store operation rejected *)
| SendError.       (* [ws.send] failed *)

Inductive Outcome (A : Type) :=
| Ok (a : A)
| Throw (e : Exn).
Arguments Ok {A} a.
Arguments Throw {A} e.

Definition M (A : Type) := World -> Outcome A * World.

Definition ret {A} (a : A) : M A := fun w => (Ok a, w).

Definition throw {A} (e : Exn) : M A := fun w => (Throw e, w).

Definition bind {A B} (m : M A) (f : A -> M B) : M B :=
  fun w =>
    match m w with
    | (Ok a, w') => f a w'
    | (Throw e, w') => (Throw e, w')
    end.

Declare Scope js_scope.
Delimit Scope js_scope with js.
Notation "x <- m ;; k" := (bind m (fun x => k))
  (at level 61, m at next level, right associativity) : js_scope.
Notation "m ;;; k" := (bind m (fun _ => k))
  (at level 61, right associativity) : js_scope.
Open Scope js_scope.

(** A call that leaves the process: it consumes the next entry of [faults]
    and throws [e] when that entry says so.  With no entry left it succeeds. *)
Definition external (e : Exn) : M unit :=
  fun w =>
    match faults w with
    | [] => (Ok tt, w)
    | b :: fs => (if b then Throw e else Ok tt, set_faults fs w)
    end.

(** [new Date()]. *)
Definition Date_now : M Z := fun w => (Ok (now w), w).

(** [array.map(f)] for an [f] that runs in [M]. *)
Fixpoint mapM {A B} (f : A -> M B) (l : list A) : M (list B) :=
  match l with
  | [] => ret []
  | a :: l' => b <- f a ;; bs <- mapM f l' ;; ret (b :: bs)
  end.

(** [for (const x of l) { await body(x); }]. *)
Fixpoint forOf {A} (l : list A) (body : A -> M unit) : M unit :=
  match l with
  | [] => ret tt
  | a :: l' => body a ;;; forOf l' body
  end.

(** ** The timer view model *)

(** [new TimerViewModel(timer)]. *)
Definition TimerViewModel (timer : Timer.t) : M View.t :=
  let isActive := match Timer.end_ timer with None => true | Some _ => false end in
  if isActive then
    d <- Date_now ;;
    ret (View.mk (Timer._id timer) (Timer.userId timer) (Timer.description timer)
           (Timer.start timer) (Timer.end_ timer) true
           (Some (d - Timer.start timer)%Z) None)
  else
    ret (View.mk (Timer._id timer) (Timer.userId timer) (Timer.description timer)
           (Timer.start timer) (Timer.end_ timer) false
           None
           (match Timer.end_ timer with
            | Some e => Some (e - Timer.start timer)%Z
            | None => None
            end)).

(** ** Requests and responses *)

(** [req.cookies[name]] and [cookie.parse(...)[name]]: the first pair wins. *)
Fixpoint cookie (name : string) (jar : list (string * string)) : option string :=
  match jar with
  | [] => None
  | (k, v) :: jar' => if String.eqb name k then Some v else cookie name jar'
  end.

(** JavaScript truthiness of a cookie value: [undefined] and the empty string
    are falsy. *)
Definition truthy (v : option string) : bool :=
  match v with
  | None => false
  | Some s => negb (String.eqb s "")
  end.

(** An HTTP request as the timer routes read it.  The cookie values are
    the ones [cookieParser()] leaves as strings; a value of the form
    [j:<JSON>], which it replaces by the parsed JSON, is not represented. *)
Record Request := mkRequest {
  cookies : list (string * string);   (* [req.cookies], from [cookieParser()] *)
  body_description : string;          (* [req.body.description] *)
  params_id : string                  (* [req.params.id] *)
}.

Inductive Response :=
| sendStatus (code : nat)                       (* [res.sendStatus(code)] *)
| status_send_id (code : nat) (id : oid)        (* [res.status(code).send({ id })] *)
| status_send (code : nat) (text : string).     (* [res.status(code).send(text)] *)

(** An upgrade request.  [headers_cookie] is [req.headers["cookie"]]: [None]
    when the request carries no Cookie header, otherwise the pairs
    [cookie.parse] reads from the header text. *)
Record UpgradeRequest := mkUpgrade {
  headers_cookie : option (list (string * string))
}.

(** The refusal written to the raw socket:
    ["HTTP/1.1 401 Unauthorized\r\n\r\n"]. *)
Definition CRLF : string :=
  String (ascii_of_nat 13) (String (ascii_of_nat 10) EmptyString).

Definition unauthorized : string := "HTTP/1.1 401 Unauthorized" ++ CRLF ++ CRLF.

(** What became of the raw socket of an upgrade request. *)
Inductive SocketFate :=
| Refused (written : string)   (* [socket.write(written); socket.destroy()] *)
| Upgraded (c : ws).           (* handshake completed, "connection" emitted *)

(** [cookie.parse(str)] throws a [TypeError] unless [str] is a string. *)
Definition cookie_parse (h : option (list (string * string))) : M (list (string * string)) :=
  match h with
  | None => throw TypeError
  | Some jar => ret jar
  end.

(** ** Store operations *)

(** [db.collection("timers").find(q).toArray()]. *)
Definition timers_find (q : Timer.t -> bool) : M (list Timer.t) :=
  external MongoError ;;;
  fun w => (Ok (filter q (timers (db w))), w).

(** [db.collection("timers").insertOne(doc)]: the store picks the [_id]. *)
Definition timers_insertOne (doc : oid -> Timer.t) : M oid :=
  external MongoError ;;;
  fun w =>
    let d := db w in
    let i := next_oid d in
    (Ok i, set_db (mkDb (users d) (sessions d) (timers d ++ [doc i]) (N.succ i)) w).

(** The first document that matches [q] is replaced by its update. *)
Fixpoint update_first (q : Timer.t -> bool) (u : Timer.t -> Timer.t)
  (l : list Timer.t) : option Timer.t * list Timer.t :=
  match l with
  | [] => (None, [])
  | t :: l' =>
      if q t then (Some (u t), u t :: l')
      else let (r, l'') := update_first q u l' in (r, t :: l'')
  end.

(** [db.collection("timers").findOneAndUpdate(q, u, { returnDocument: "after" })];
    the result is [result.value]. *)
Definition timers_findOneAndUpdate (q : Timer.t -> bool) (u : Timer.t -> Timer.t)
  : M (option Timer.t) :=
  external MongoError ;;;
  fun w =>
    let (r, ts) := update_first q u (timers (db w)) in
    (Ok r, set_db (set_timers ts (db w)) w).

Definition sessions_findOne (q : Session.t -> bool) : M (option Session.t) :=
  external MongoError ;;;
  fun w => (Ok (find q (sessions (db w))), w).

Definition users_findOne (q : User.t -> bool) : M (option User.t) :=
  external MongoError ;;;
  fun w => (Ok (find q (users (db w))), w).

Definition findUserBySessionId (sessionId : string) : M (option User.t) :=
  session <- sessions_findOne (fun s => String.eqb (Session.sessionId s) sessionId) ;;
  match session with
  | None => ret None
  | Some s => users_findOne (fun u => N.eqb (User._id u) (Session.userId s))
  end.

Definition createTimer (userId : oid) (description : string) : M oid :=
  d <- Date_now ;;
  timers_insertOne (fun i => Timer.mk i userId description d None).

(** The filter is [{ _id: id, userId }]: the timer's [end] is not looked at. *)
Definition stopTimer (id : oid) (userId : oid) : M bool :=
  d <- Date_now ;;
  result <- timers_findOneAndUpdate
              (fun t => N.eqb (Timer._id t) id && N.eqb (Timer.userId t) userId)
              (fun t => Timer.mk (Timer._id t) (Timer.userId t) (Timer.description t)
                          (Timer.start t) (Some d)) ;;
  match result with
  | None => ret false
  | Some _ => ret true
  end.

(** The query [{ userId }], and the query [{ end: null }], which selects the
    documents whose [end] is null or missing. *)
Definition owned_by (userId : oid) (t : Timer.t) : bool :=
  N.eqb (Timer.userId t) userId.

Definition end_is_null (t : Timer.t) : bool :=
  match Timer.end_ t with None => true | Some _ => false end.

Definition fetchAllTimers (userId : oid) : M (list View.t) :=
  ts <- timers_find (owned_by userId) ;;
  mapM TimerViewModel ts.

(** The filter is [{ $and: [{ userId }, { end: null }] }]. *)
Definition fetchActiveTimers (userId : oid) : M (list View.t) :=
  ts <- timers_find (fun t => owned_by userId t && end_is_null t) ;;
  mapM TimerViewModel ts.

(** ** Pushes, handlers, ticker *)

(** [clients.get(userId)]. *)
Definition clients_get (userId : string) : M (option ws) :=
  fun w => (Ok (Map_get userId (clients w)), w).

(** [x.send(msg)] where [x] is what [clients.get] returned: calling [send]
    on [undefined] is a [TypeError]. *)
Definition send (x : option ws) (msg : Msg.t) : M unit :=
  match x with
  | None => throw TypeError
  | Some c =>
      external SendError ;;;
      fun w => (Ok tt, set_wire (wire w ++ [(c, msg)]) w)
  end.

(** [setInterval(..., 1000)]. *)
Definition tick_period_ms : Z := 1000.

Section Driver.

(** [ObjectId(s)] for a string [s]: [None] when the constructor throws. *)
Variable ObjectId : string -> option oid.
(** [o.toString()] for an object id [o]. *)
Variable toString : oid -> string.

Definition ObjectId_of (s : string) : M oid :=
  match ObjectId s with
  | Some o => ret o
  | None => throw BSONTypeError
  end.

Definition sendAllTimersMsg (userId : string) : M unit :=
  o <- ObjectId_of userId ;;
  ts <- fetchAllTimers o ;;
  x <- clients_get userId ;;
  send x (Msg.mk "all_timers" ts).

Definition sendActiveTimersMsg (userId : string) : M unit :=
  o <- ObjectId_of userId ;;
  ts <- fetchActiveTimers o ;;
  x <- clients_get userId ;;
  send x (Msg.mk "active_timers" ts).

(** The [auth()] middleware: the value it leaves in [req.user]. *)
Definition auth (req : Request) : M (option User.t) :=
  match cookie "sessionId" (cookies req) with
  | None => ret None
  | Some sessionId =>
      if String.eqb sessionId "" then ret None
      else findUserBySessionId sessionId
  end.

(** [app.post("/api/timers", ...)]. *)
Definition post_api_timers (req : Request) : M Response :=
  user <- auth req ;;
  match user with
  | None => ret (sendStatus 401)
  | Some u =>
      id <- createTimer (User._id u) (body_description req) ;;
      sendAllTimersMsg (toString (User._id u)) ;;;
      ret (status_send_id 201 id)
  end.

(** [app.post("/api/timers/:id/stop", ...)]. *)
Definition post_api_timers_stop (req : Request) : M Response :=
  user <- auth req ;;
  match user with
  | None => ret (sendStatus 401)
  | Some u =>
      let id := params_id req in
      i <- ObjectId_of id ;;
      stopped <- stopTimer i (User._id u) ;;
      if stopped then
        sendAllTimersMsg (toString (User._id u)) ;;;
        ret (sendStatus 204)
      else
        ret (status_send 404 ("Unknown timer ID: " ++ id))
  end.

(** [wss.on("connection", ...)] for the socket [c] and [req.userId = userId]:
    register, listen for "close", push everything. *)
Definition connection (c : ws) (userId : string) : M unit :=
  (fun w => (Ok tt, set_listeners ((c, userId) :: listeners w)
                      (set_clients (Map_set userId c (clients w)) w))) ;;;
  sendAllTimersMsg userId.

(** [server.on("upgrade", ...)].  The "connection" listener is [async]: when
    it rejects, nothing awaits it, and the upgrade handler has returned. *)
Definition upgrade (req : UpgradeRequest) : M SocketFate :=
  jar <- cookie_parse (headers_cookie req) ;;
  let userId := cookie "userId" jar in
  if negb (truthy userId) then
    ret (Refused unauthorized)
  else
    fun w =>
      let c := next_ws w in
      let w1 := set_next_ws (S c) w in
      (Ok (Upgraded c),
       snd (connection c (match userId with Some v => v | None => "" end) w1)).

(** The "close" listener of socket [c]: [clients.delete(userId)] for the
    [userId] it captured.  The listener itself has no guard; a socket emits
    "close" once, and [listeners] holds the sockets that have not done so
    yet, so for any other socket there is no emission to handle. *)
Definition close (c : ws) : M unit :=
  fun w =>
    match find (fun l : ws * string => Nat.eqb (fst l) c) (listeners w) with
    | None => (Ok tt, w)
    | Some (_, userId) =>
        (Ok tt, set_listeners
                  (filter (fun l : ws * string => negb (Nat.eqb (fst l) c)) (listeners w))
                  (set_clients (Map_delete userId (clients w)) w))
    end.

(** The body of the [setInterval] callback. *)
Definition tick : M unit :=
  fun w => forOf (Map_keys (clients w)) sendActiveTimersMsg w.

(** ** The event loop *)

Inductive Event :=
| EUpgrade (req : UpgradeRequest)
| EClose (c : ws)
| ETick
| EPostTimers (req : Request)
| EPostStop (req : Request)
| EElapse (ms : N)               (* the clock moves on *)
| EInject (fs : list bool).      (* the environment schedules failures *)

(** One event handled to completion; a handler that throws leaves the world
    as it was at the throw. *)
Definition step (e : Event) (w : World) : World :=
  match e with
  | EUpgrade req => snd (upgrade req w)
  | EClose c => snd (close c w)
  | ETick => snd (tick w)
  | EPostTimers req => snd (post_api_timers req w)
  | EPostStop req => snd (post_api_timers_stop req w)
  | EElapse ms => set_now (now w + Z.of_N ms) w
  | EInject fs => set_faults fs w
  end.

Fixpoint run (es : list Event) (w : World) : World :=
  match es with
  | [] => w
  | e :: es' => run es' (step e w)
  end.

End Driver.

(** ** Vocabulary of the statements *)

(** The view the constructor builds when the clock reads [d]. *)
Definition view_at (d : Z) (t : Timer.t) : View.t :=
  match Timer.end_ t with
  | None =>
      View.mk (Timer._id t) (Timer.userId t) (Timer.description t) (Timer.start t)
        None true (Some (d - Timer.start t)%Z) None
  | Some e =>
      View.mk (Timer._id t) (Timer.userId t) (Timer.description t) (Timer.start t)
        (Some e) false None (Some (e - Timer.start t)%Z)
  end.

(** The registry is well formed: one entry per key, no socket under two
    keys, and every registered socket is one that [handleUpgrade] has
    created. *)
Definition WF (w : World) : Prop :=
  NoDup (Map_keys (clients w)) /\
  NoDup (Map_values (clients w)) /\
  Forall (fun c => c < next_ws w) (Map_values (clients w)).

(** [w'] differs from [w] at most by store and clock effects and by sends to
    sockets registered in [w]. *)
Definition pushes (w w' : World) : Prop :=
  clients w' = clients w /\
  listeners w' = listeners w /\
  next_ws w' = next_ws w /\
  exists l, wire w' = (wire w ++ l)%list /\
            Forall (fun e => In (fst e) (Map_values (clients w))) l.

(** [w'] differs from [w] at most in the store and in the failures still
    to come. *)
Definition quiet (w w' : World) : Prop :=
  now w' = now w /\
  clients w' = clients w /\
  listeners w' = listeners w /\
  next_ws w' = next_ws w /\
  wire w' = wire w.

(** Every run of [m] relates the world before to the world after, whether
    [m] returns or throws. *)
Definition keeps (R : World -> World -> Prop) {A} (m : M A) : Prop :=
  forall w, R w (snd (m w)).

Definition absent {A} (x : option A) : bool :=
  match x with None => true | Some _ => false end.

Definition present {A} (x : option A) : bool := negb (absent x).

(** The world right after the synchronous part of the "connection" listener. *)
Definition registered (c : ws) (userId : string) (w : World) : World :=
  set_listeners ((c, userId) :: listeners w)
    (set_clients (Map_set userId c (clients w)) w).

(** [m] does not look at the users or the sessions: run on a world with
    another identity part, it ends the same way and leaves that part as it
    found it. *)
Definition blind {A} (m : M A) : Prop :=
  forall us ss w,
    m (set_identity us ss w) = (fst (m w), set_identity us ss (snd (m w))).

(** The views of the running timers of the user a registry key stands for,
    and of all the timers of that user. *)
Definition active_snapshot (ObjectId : string -> option oid) (w : World) (k : string)
  : list View.t :=
  match ObjectId k with
  | Some o => map (view_at (now w))
                (filter (fun t => owned_by o t && end_is_null t) (timers (db w)))
  | None => []
  end.

Definition full_snapshot (ObjectId : string -> option oid) (w : World) (k : string)
  : list View.t :=
  match ObjectId k with
  | Some o => map (view_at (now w)) (filter (owned_by o) (timers (db w)))
  | None => []
  end.

(** Socket [c] exists and no key of the registry leads to it. *)
Definition orphan (c : ws) (w : World) : Prop :=
  c < next_ws w /\ ~ In c (Map_values (clients w)).

(** The value of a computation, when it returns one. *)
Definition value {A} (r : Outcome A * World) : option A :=
  match fst r with
  | Ok a => Some a
  | Throw _ => None
  end.

Definition throws {A} (r : Outcome A * World) : Prop :=
  exists e, fst r = Throw e.

(** ** An instance of the driver parameters

    Object ids written as 24 hexadecimal digits, the form in which
    [toString] prints them and [ObjectId] reads them back; [ObjectId] also
    takes a string of 12 bytes as the twelve bytes of the id, and throws on
    any other string. *)

Definition hex_digit (c : ascii) : option N :=
  let n := N_of_ascii c in
  if (48 <=? n)%N && (n <=? 57)%N then Some (n - 48)%N
  else if (97 <=? n)%N && (n <=? 102)%N then Some (n - 87)%N
  else if (65 <=? n)%N && (n <=? 70)%N then Some (n - 55)%N
  else None.

Fixpoint hex_value (s : string) (acc : N) : option N :=
  match s with
  | EmptyString => Some acc
  | String c s' =>
      match hex_digit c with
      | Some d => hex_value s' (16 * acc + d)%N
      | None => None
      end
  end.

Fixpoint bytes_value (s : string) (acc : N) : N :=
  match s with
  | EmptyString => acc
  | String c s' => bytes_value s' (256 * acc + N_of_ascii c)%N
  end.

Definition hexObjectId (s : string) : option oid :=
  if Nat.eqb (String.length s) 12 then Some (bytes_value s 0%N)
  else if Nat.eqb (String.length s) 24 then hex_value s 0%N
  else None.

Definition hex_char (d : N) : ascii :=
  if (d <? 10)%N then ascii_of_N (48 + d) else ascii_of_N (87 + d).

Fixpoint hex_digits (n : nat) (x : N) (acc : string) : string :=
  match n with
  | O => acc
  | S n' => hex_digits n' (x / 16)%N (String (hex_char (x mod 16)%N) acc)
  end.

Definition hexString (o : oid) : string := hex_digits 24 o EmptyString.

(** ** Scenario data *)

Definition alice : User.t := User.mk 7%N "alice" "5e884898da28".
Definition bob : User.t := User.mk 8%N "bob" "6b3a55e0261b".
Definition alice_key : string := "000000000000000000000007".
Definition bob_key : string := "000000000000000000000008".

(** Alice's timer, started at instant 0 and still running. *)
Definition write_spec : Timer.t := Timer.mk 1%N 7%N "write spec" 0%Z None.

Definition store0 : Db :=
  mkDb [alice; bob] [Session.mk 7%N "s-alice"; Session.mk 8%N "s-bob"] [write_spec] 2%N.

(** Five seconds in, nobody connected. *)
Definition offline : World := mkWorld 5000%Z [] store0 [] [] 0 [].

(** Five seconds in, Alice on socket 0 and Bob on socket 1. *)
Definition online : World :=
  mkWorld 5000%Z [] store0 [(alice_key, 0); (bob_key, 1)]
    [(1, bob_key); (0, alice_key)] 2 [].

Definition alice_starts : Request :=
  mkRequest [("sessionId", "s-alice"); ("userId", alice_key)] "read mail" "".

Definition alice_stops : Request :=
  mkRequest [("sessionId", "s-alice"); ("userId", alice_key)] ""
    "000000000000000000000001".

Definition alice_connects : UpgradeRequest :=
  mkUpgrade (Some [("sessionId", "s-alice"); ("userId", alice_key)]).

(** ** Accounts and sessions *)

(** [view.stop(time)]: the in-memory counterpart of stopping a timer.  The
    argument defaults to [new Date()]; the object is updated in place, the
    updated object is what is returned here. *)
Definition TimerViewModel_stop (this : View.t) (time : option Z) : M View.t :=
  t <- match time with Some t => ret t | None => Date_now end ;;
  ret (View.mk (View.id this) (View.userId this) (View.description this)
         (View.start this) (Some t) false None (Some (t - View.start this)%Z)).

(** [db.collection("users").insertOne(doc)] and
    [db.collection("sessions").insertOne(doc)]. *)
Definition users_insertOne (doc : oid -> User.t) : M oid :=
  external MongoError ;;;
  fun w =>
    let d := db w in
    let i := next_oid d in
    (Ok i, set_db (mkDb (users d ++ [doc i]) (sessions d) (timers d) (N.succ i)) w).

Definition sessions_insertOne (doc : Session.t) : M unit :=
  external MongoError ;;;
  fun w =>
    let d := db w in
    (Ok tt, set_db (mkDb (users d) (sessions d ++ [doc]) (timers d) (next_oid d)) w).

(** The first element that satisfies [q] is removed. *)
Fixpoint remove_first {A} (q : A -> bool) (l : list A) : list A :=
  match l with
  | [] => []
  | a :: l' => if q a then l' else a :: remove_first q l'
  end.

(** [db.collection("sessions").deleteOne(q)]. *)
Definition sessions_deleteOne (q : Session.t -> bool) : M unit :=
  external MongoError ;;;
  fun w =>
    let d := db w in
    (Ok tt, set_db (mkDb (users d) (remove_first q (sessions d)) (timers d) (next_oid d)) w).

Definition findUserByUsername (username : string) : M (option User.t) :=
  users_findOne (fun u => String.eqb (User.username u) username).

(** [createSession(db, userId)].  [nanoid] is the string the call [nanoid()]
    produces. *)
Definition createSession (nanoid : string) (userId : oid) : M string :=
  sessions_insertOne (Session.mk userId nanoid) ;;;
  ret nanoid.

Definition deleteSession (sessionId : string) : M unit :=
  sessions_deleteOne (fun s => String.eqb (Session.sessionId s) sessionId).

(** What the account routes answer: a redirect, with the cookies set and the
    cookies cleared on the way. *)
Inductive Redirect :=
| redirect (url : string) (cookie_set : list (string * string)) (cookie_cleared : list string).

Definition authError : Redirect := redirect "/?authError=true" [] [].

(** The form of the signup and login routes: [req.body]. *)
Record Credentials := mkCredentials { username : string; password : string }.

Section Accounts.

(** [hash]: the SHA-256 digest of a string, in hexadecimal. *)
Variable hash : string -> string.
Variable toString : oid -> string.

(** [createUser(db, username, password)]: [None] is the [null] returned when
    the name is taken. *)
Definition createUser (username password : string) : M (option oid) :=
  existingUser <- findUserByUsername username ;;
  match existingUser with
  | Some _ => ret None
  | None =>
      insertedId <- users_insertOne (fun i => User.mk i username (hash password)) ;;
      ret (Some insertedId)
  end.

(** [app.post("/login", ...)]. *)
Definition login (nanoid : string) (body : Credentials) : M Redirect :=
  user <- findUserByUsername (username body) ;;
  match user with
  | None => ret authError
  | Some u =>
      if negb (String.eqb (User.password u) (hash (password body))) then ret authError
      else
        sessionId <- createSession nanoid (User._id u) ;;
        ret (redirect "/" [("sessionId", sessionId); ("userId", toString (User._id u))] [])
  end.

(** [app.post("/signup", ...)]. *)
Definition signup (nanoid : string) (body : Credentials) : M Redirect :=
  created <- createUser (username body) (password body) ;;
  match created with
  | None => ret authError
  | Some _ =>
      user <- findUserByUsername (username body) ;;
      match user with
      | None => ret authError
      | Some u =>
          if negb (String.eqb (User.password u) (hash (password body))) then ret authError
          else
            sessionId <- createSession nanoid (User._id u) ;;
            ret (redirect "/"
                   [("sessionId", sessionId); ("userId", toString (User._id u))] [])
      end
  end.

End Accounts.

(** [app.get("/logout", ...)]; [req.sessionId] is the cookie [auth()] read. *)
Definition logout (req : Request) : M Redirect :=
  user <- auth req ;;
  match user with
  | None => ret (redirect "/" [] [])
  | Some _ =>
      deleteSession (match cookie "sessionId" (cookies req) with
                     | Some s => s
                     | None => ""
                     end) ;;;
      ret (redirect "/" [] ["sessionId"])
  end.

(** ** More vocabulary *)

(** The store and the clock are as they were. *)
Definition same_store (w w' : World) : Prop :=
  db w' = db w /\ now w' = now w.

(** No timer starts or ends in the future, and none ends before it starts. *)
Definition timely_at (d : Z) (t : Timer.t) : Prop :=
  (Timer.start t <= d)%Z /\
  match Timer.end_ t with
  | Some e => (Timer.start t <= e)%Z /\ (e <= d)%Z
  | None => True
  end.

Definition Timely (w : World) : Prop :=
  Forall (timely_at (now w)) (timers (db w)).

(** The clock has not gone back, and timers that were timely still are. *)
Definition keeps_time (w w' : World) : Prop :=
  (now w <= now w')%Z /\ (Timely w -> Timely w').

(** Every socket has one "close" listener, and every registry entry leads to
    an open socket that was opened with the entry's key. *)
Definition Open_registry (w : World) : Prop :=
  NoDup (map fst (listeners w)) /\
  Forall (fun l => fst l < next_ws w) (listeners w) /\
  (forall k c, In (k, c) (clients w) -> In (c, k) (listeners w)).

(** The update [stopTimer] applies. *)
Definition stopped_at (d : Z) (t : Timer.t) : Timer.t :=
  Timer.mk (Timer._id t) (Timer.userId t) (Timer.description t) (Timer.start t) (Some d).

(** The selector [stopTimer] uses. *)
Definition has_id_and_owner (i userId : oid) (t : Timer.t) : bool :=
  N.eqb (Timer._id t) i && N.eqb (Timer.userId t) userId.


(** [v] is a view of the record [t], built at some reading of the clock. *)
Definition shows (v : View.t) (t : Timer.t) : Prop :=
  exists d, v = view_at d t.

(** [cookieParser()] replaces a cookie value of the form [j:<JSON>] by the
    parsed JSON; only the other values are strings in [req.cookies]. *)
Definition json_cookie (v : string) : bool := String.prefix "j:" v.

(** ** More scenario data *)

(** An instance of the hash parameter: it knows the digest of one password,
    as stored for Alice, and maps every other text to a digest nobody has. *)
Definition table_hash (s : string) : string :=
  if String.eqb s "password" then "5e884898da28" else "000000000000".

Definition alice_logs_in : Credentials := mkCredentials "alice" "password".

Definition carol_signs_up : Credentials := mkCredentials "carol" "password".

(** * Properties *)

(** ** The [Map] operations *)

Section JsMapFacts.
Context {V : Type}.
Implicit Types (k : string) (v : V) (m : list (string * V)).

Lemma Map_get_set_same k v m : Map_get k (Map_set k v m) = Some v.
Proof.
  induction m as [|[k' v'] m IH]; simpl.
  - now rewrite String.eqb_refl.
  - destruct (String.eqb k k') eqn:E; simpl.
    + now rewrite String.eqb_refl.
    + now rewrite E.
Qed.

Lemma Map_get_set_other k k' v m :
  k <> k' -> Map_get k' (Map_set k v m) = Map_get k' m.
Proof.
  intros Hne. induction m as [|[k0 v0] m IH]; simpl.
  - destruct (String.eqb k' k) eqn:E; [|reflexivity].
    apply String.eqb_eq in E. congruence.
  - destruct (String.eqb k k0) eqn:E; simpl.
    + apply String.eqb_eq in E. subst k0.
      destruct (String.eqb k' k) eqn:E'; [|reflexivity].
      apply String.eqb_eq in E'. congruence.
    + now rewrite IH.
Qed.

Lemma Map_keys_set_in k k' v m :
  In k' (Map_keys (Map_set k v m)) <-> k' = k \/ In k' (Map_keys m).
Proof.
  unfold Map_keys. induction m as [|[k0 v0] m IH]; simpl.
  - intuition.
  - destruct (String.eqb k k0) eqn:E; simpl.
    + apply String.eqb_eq in E. subst k0. intuition.
    + rewrite IH. intuition.
Qed.

Lemma Map_set_NoDup k v m :
  NoDup (Map_keys m) -> NoDup (Map_keys (Map_set k v m)).
Proof.
  unfold Map_keys. induction m as [|[k0 v0] m IH]; simpl; intros H.
  - constructor; [intros []|constructor].
  - inversion H as [|? ? Hin Hnd]; subst.
    destruct (String.eqb k k0) eqn:E; simpl.
    + apply String.eqb_eq in E. subst k0. now constructor.
    + constructor; [|now apply IH].
      intros Hc. apply (Map_keys_set_in k k0 v m) in Hc.
      destruct Hc as [->|Hc]; [|contradiction].
      now rewrite String.eqb_refl in E.
Qed.

Lemma Map_values_set_in k v m c :
  In c (Map_values (Map_set k v m)) -> c = v \/ In c (Map_values m).
Proof.
  unfold Map_values. induction m as [|[k0 v0] m IH]; simpl.
  - intuition.
  - destruct (String.eqb k k0); simpl; intuition.
Qed.

Lemma Map_keys_delete_in k k' m :
  In k' (Map_keys (Map_delete k m)) -> In k' (Map_keys m).
Proof.
  unfold Map_keys. induction m as [|[k0 v0] m IH]; simpl; [tauto|].
  destruct (String.eqb k k0); simpl; intuition.
Qed.

Lemma Map_values_delete_in k m c :
  In c (Map_values (Map_delete k m)) -> In c (Map_values m).
Proof.
  unfold Map_values. induction m as [|[k0 v0] m IH]; simpl; [tauto|].
  destruct (String.eqb k k0); simpl; intuition.
Qed.

Lemma Map_delete_NoDup k m :
  NoDup (Map_keys m) -> NoDup (Map_keys (Map_delete k m)).
Proof.
  unfold Map_keys. induction m as [|[k0 v0] m IH]; simpl; intros H; [constructor|].
  inversion H as [|? ? Hin Hnd]; subst.
  destruct (String.eqb k k0); simpl; [assumption|].
  constructor; [|now apply IH].
  intros Hc. now apply (Map_keys_delete_in k k0 m) in Hc.
Qed.



Lemma Map_get_delete_other k k' m :
  k <> k' -> Map_get k' (Map_delete k m) = Map_get k' m.
Proof.
  intros Hne. induction m as [|[k0 v0] m IH]; simpl; [reflexivity|].
  destruct (String.eqb k k0) eqn:E; simpl.
  - apply String.eqb_eq in E. subst k0.
    destruct (String.eqb k' k) eqn:E'; [|reflexivity].
    apply String.eqb_eq in E'. congruence.
  - now rewrite IH.
Qed.

Lemma Map_get_Some_value k m v : Map_get k m = Some v -> In v (Map_values m).
Proof.
  unfold Map_values. induction m as [|[k0 v0] m IH]; simpl; [discriminate|].
  destruct (String.eqb k k0); [intros [= ->]; now left|].
  intros H. right. now apply IH.
Qed.

Lemma Map_get_Some_key k m v : Map_get k m = Some v -> In k (Map_keys m).
Proof.
  unfold Map_keys. induction m as [|[k0 v0] m IH]; simpl; [discriminate|].
  destruct (String.eqb k k0) eqn:E.
  - apply String.eqb_eq in E. now left.
  - intros H. right. now apply IH.
Qed.

(** With distinct keys every entry is the one [get] finds. *)
Lemma Map_get_entry k v m :
  NoDup (Map_keys m) -> In (k, v) m -> Map_get k m = Some v.
Proof.
  unfold Map_keys. induction m as [|[k0 v0] m IH]; simpl; intros Hnd Hin; [tauto|].
  inversion Hnd as [|? ? Hn Hnd']; subst.
  destruct Hin as [[= -> ->]|Hin].
  - now rewrite String.eqb_refl.
  - destruct (String.eqb k k0) eqn:E; [|now apply IH].
    apply String.eqb_eq in E. subst k0.
    exfalso. apply Hn. apply in_map_iff. now exists (k, v).
Qed.

Lemma Map_set_values_NoDup k (v : V) m :
  NoDup (Map_values m) -> ~ In v (Map_values m) ->
  NoDup (Map_values (Map_set k v m)).
Proof.
  unfold Map_values. induction m as [|[k0 v0] m IH]; simpl; intros Hnd Hv.
  - constructor; [intros []|constructor].
  - inversion Hnd as [|? ? Hn Hnd']; subst.
    destruct (String.eqb k k0); simpl.
    + constructor; [tauto|assumption].
    + constructor; [|apply IH; tauto].
      intros Hc. apply (Map_values_set_in k v m v0) in Hc.
      destruct Hc as [->|Hc]; tauto.
Qed.

Lemma Map_delete_values_NoDup k m :
  NoDup (Map_values m) -> NoDup (Map_values (Map_delete k m)).
Proof.
  unfold Map_values. induction m as [|[k0 v0] m IH]; simpl; intros Hnd; [constructor|].
  inversion Hnd as [|? ? Hn Hnd']; subst.
  destruct (String.eqb k k0); simpl; [assumption|].
  constructor; [|now apply IH].
  intros Hc. now apply (Map_values_delete_in k m v0) in Hc.
Qed.

(** Once a key is overwritten, the socket it led to is not in the map any
    more, unless it is the very socket written. *)
Lemma Map_set_drops_old k (v x : V) m :
  NoDup (Map_values m) -> Map_get k m = Some x ->
  In x (Map_values (Map_set k v m)) -> x = v.
Proof.
  unfold Map_values. induction m as [|[k0 v0] m IH]; simpl; intros Hnd Hg Hin; [discriminate|].
  inversion Hnd as [|? ? Hn Hnd']; subst.
  destruct (String.eqb k k0); simpl in Hin.
  - injection Hg as ->. destruct Hin as [Hin|Hin]; [now symmetry|contradiction].
  - destruct Hin as [Hin|Hin]; [|now apply IH].
    subst v0. exfalso. apply Hn. now apply (Map_get_Some_value k m x).
Qed.

Lemma Map_count_set_same k (v : V) m :
  NoDup (Map_keys m) -> Map_count k (Map_set k v m) = 1.
Proof.
  unfold Map_keys, Map_count. induction m as [|[k0 v0] m IH]; simpl; intros H.
  - now rewrite String.eqb_refl.
  - inversion H as [|? ? Hn Hnd]; subst.
    destruct (String.eqb k k0) eqn:E; simpl.
    + apply String.eqb_eq in E. subst k0. rewrite String.eqb_refl. simpl. f_equal.
      clear -Hn. induction m as [|[k1 v1] m IH]; simpl in *; [reflexivity|].
      destruct (String.eqb k1 k) eqn:E.
      * apply String.eqb_eq in E. tauto.
      * apply IH. tauto.
    + rewrite String.eqb_sym, E. now apply IH.
Qed.

Lemma Map_count_le_1 k m : NoDup (Map_keys m) -> Map_count k m <= 1.
Proof.
  unfold Map_keys, Map_count. induction m as [|[k0 v0] m IH]; simpl; intros H; [lia|].
  inversion H as [|? ? Hn Hnd]; subst.
  destruct (String.eqb k0 k) eqn:E; simpl; [|now apply IH].
  apply String.eqb_eq in E. subst k0.
  assert (Hz : filter (fun e : string * V => String.eqb (fst e) k) m = []).
  { clear -Hn. induction m as [|[k1 v1] m IH]; simpl in *; [reflexivity|].
    destruct (String.eqb k1 k) eqn:E.
    - apply String.eqb_eq in E. tauto.
    - apply IH. tauto. }
  rewrite Hz. simpl. lia.
Qed.

End JsMapFacts.

(** ** Running computations *)

Lemma bind_Ok {A B} (m : M A) (f : A -> M B) w a w' :
  m w = (Ok a, w') -> bind m f w = f a w'.
Proof. unfold bind. now intros ->. Qed.

Lemma bind_Throw {A B} (m : M A) (f : A -> M B) w e w' :
  m w = (Throw e, w') -> bind m f w = (Throw e, w').
Proof. unfold bind. now intros ->. Qed.

Lemma bind_ret_l {A B} (a : A) (f : A -> M B) w : bind (ret a) f w = f a w.
Proof. reflexivity. Qed.

Lemma bind_throw_l {A B} e (f : A -> M B) w : bind (throw e) f w = (Throw e, w).
Proof. reflexivity. Qed.

Lemma external_quiet e w : faults w = [] -> external e w = (Ok tt, w).
Proof. unfold external. now intros ->. Qed.

Lemma TimerViewModel_view_at t w :
  TimerViewModel t w = (Ok (view_at (now w) t), w).
Proof.
  unfold TimerViewModel, view_at. destruct (Timer.end_ t); reflexivity.
Qed.

Lemma mapM_TimerViewModel ts w :
  mapM TimerViewModel ts w = (Ok (map (view_at (now w)) ts), w).
Proof.
  induction ts as [|t ts IH]; simpl; [reflexivity|].
  rewrite (bind_Ok _ _ _ _ _ (TimerViewModel_view_at t w)).
  now rewrite (bind_Ok _ _ _ _ _ IH).
Qed.

Lemma timers_find_quiet q w :
  faults w = [] -> timers_find q w = (Ok (filter q (timers (db w))), w).
Proof.
  intros H. unfold timers_find.
  now rewrite (bind_Ok _ _ _ _ _ (external_quiet MongoError w H)).
Qed.

Lemma fetchAllTimers_quiet o w :
  faults w = [] ->
  fetchAllTimers o w =
    (Ok (map (view_at (now w))
           (filter (owned_by o) (timers (db w)))), w).
Proof.
  intros H. unfold fetchAllTimers.
  rewrite (bind_Ok _ _ _ _ _ (timers_find_quiet _ w H)).
  apply mapM_TimerViewModel.
Qed.

Lemma fetchActiveTimers_quiet o w :
  faults w = [] ->
  fetchActiveTimers o w =
    (Ok (map (view_at (now w))
           (filter (fun t => owned_by o t && end_is_null t) (timers (db w)))), w).
Proof.
  intros H. unfold fetchActiveTimers.
  rewrite (bind_Ok _ _ _ _ _ (timers_find_quiet _ w H)).
  apply mapM_TimerViewModel.
Qed.

Lemma send_quiet c msg w :
  faults w = [] ->
  send (Some c) msg w = (Ok tt, set_wire (wire w ++ [(c, msg)]) w).
Proof.
  intros H. unfold send.
  now rewrite (bind_Ok _ _ _ _ _ (external_quiet SendError w H)).
Qed.

Section DriverFacts.
Variable ObjectId : string -> option oid.
Variable toString : oid -> string.

Lemma sendAllTimersMsg_quiet userId o c w :
  faults w = [] -> ObjectId userId = Some o ->
  Map_get userId (clients w) = Some c ->
  sendAllTimersMsg ObjectId userId w =
    (Ok tt,
     set_wire (wire w ++
       [(c, Msg.mk "all_timers"
              (map (view_at (now w))
                 (filter (owned_by o) (timers (db w)))))]) w).
Proof.
  intros Hf Ho Hc. unfold sendAllTimersMsg, ObjectId_of. rewrite Ho.
  unfold bind at 1. unfold ret.
  rewrite (bind_Ok _ _ _ _ _ (fetchAllTimers_quiet o w Hf)).
  unfold bind, clients_get. rewrite Hc. now apply send_quiet.
Qed.

Lemma sendActiveTimersMsg_quiet userId o c w :
  faults w = [] -> ObjectId userId = Some o ->
  Map_get userId (clients w) = Some c ->
  sendActiveTimersMsg ObjectId userId w =
    (Ok tt,
     set_wire (wire w ++
       [(c, Msg.mk "active_timers"
              (map (view_at (now w))
                 (filter (fun t => owned_by o t && end_is_null t)
                    (timers (db w)))))]) w).
Proof.
  intros Hf Ho Hc. unfold sendActiveTimersMsg, ObjectId_of. rewrite Ho.
  unfold bind at 1. unfold ret.
  rewrite (bind_Ok _ _ _ _ _ (fetchActiveTimers_quiet o w Hf)).
  unfold bind, clients_get. rewrite Hc. now apply send_quiet.
Qed.

End DriverFacts.

(** ** Frames: what a computation leaves alone *)

Section Frames.
Variable R : World -> World -> Prop.
Hypothesis R_refl : forall w, R w w.
Hypothesis R_trans : forall a b c, R a b -> R b c -> R a c.

Lemma keeps_ret {A} (a : A) : keeps R (ret a).
Proof. intros w. apply R_refl. Qed.

Lemma keeps_throw {A} e : keeps R (@throw A e).
Proof. intros w. apply R_refl. Qed.

Lemma keeps_bind {A B} (m : M A) (f : A -> M B) :
  keeps R m -> (forall a, keeps R (f a)) -> keeps R (bind m f).
Proof.
  intros Hm Hf w. unfold bind.
  specialize (Hm w). destruct (m w) as [[a|e] w']; simpl in *.
  - eapply R_trans; [exact Hm|apply Hf].
  - exact Hm.
Qed.

Lemma keeps_mapM {A B} (f : A -> M B) l :
  (forall a, keeps R (f a)) -> keeps R (mapM f l).
Proof.
  intros Hf. induction l as [|a l IH]; simpl.
  - apply keeps_ret.
  - apply keeps_bind; [apply Hf|]. intros b.
    apply keeps_bind; [exact IH|]. intros bs. apply keeps_ret.
Qed.

Lemma keeps_forOf {A} (body : A -> M unit) l :
  (forall a, keeps R (body a)) -> keeps R (forOf l body).
Proof.
  intros Hb. induction l as [|a l IH]; simpl.
  - apply keeps_ret.
  - apply keeps_bind; [apply Hb|]. intros _. exact IH.
Qed.

End Frames.

Lemma quiet_refl w : quiet w w.
Proof. unfold quiet. tauto. Qed.

Lemma quiet_trans a b c : quiet a b -> quiet b c -> quiet a c.
Proof. unfold quiet. intuition congruence. Qed.

Lemma pushes_refl w : pushes w w.
Proof.
  unfold pushes. repeat split. exists []. split; [now rewrite app_nil_r|constructor].
Qed.

Lemma pushes_trans a b c : pushes a b -> pushes b c -> pushes a c.
Proof.
  intros (Hc1 & Hl1 & Hn1 & l1 & Hw1 & Hf1) (Hc2 & Hl2 & Hn2 & l2 & Hw2 & Hf2).
  unfold pushes. repeat split; try congruence.
  exists (l1 ++ l2)%list. split.
  - now rewrite Hw2, Hw1, app_assoc.
  - apply Forall_app. split; [exact Hf1|]. now rewrite Hc1 in Hf2.
Qed.

Lemma quiet_pushes w w' : quiet w w' -> pushes w w'.
Proof.
  intros (_ & Hc & Hl & Hn & Hw). unfold pushes. repeat split; try assumption.
  exists []. split; [now rewrite app_nil_r|constructor].
Qed.

Lemma keeps_quiet_pushes {A} (m : M A) : keeps quiet m -> keeps pushes m.
Proof. intros H w. apply quiet_pushes, H. Qed.

Ltac quiet_step :=
  first
    [ apply (keeps_ret quiet quiet_refl)
    | apply (keeps_throw quiet quiet_refl)
    | apply (keeps_bind quiet quiet_trans); [|intros ?]
    | apply (keeps_mapM quiet quiet_refl quiet_trans); intros ? ].

Lemma external_keeps_quiet e : keeps quiet (external e).
Proof.
  intros w. unfold external. destruct (faults w) as [|b fs]; simpl.
  - apply quiet_refl.
  - unfold quiet. simpl. tauto.
Qed.

Lemma Date_now_keeps_quiet : keeps quiet Date_now.
Proof. intros w. apply quiet_refl. Qed.

Lemma TimerViewModel_keeps_quiet t : keeps quiet (TimerViewModel t).
Proof. intros w. rewrite TimerViewModel_view_at. apply quiet_refl. Qed.

Lemma timers_find_keeps_quiet q : keeps quiet (timers_find q).
Proof.
  unfold timers_find. quiet_step; [apply external_keeps_quiet|].
  intros w. apply quiet_refl.
Qed.

Lemma timers_insertOne_keeps_quiet doc : keeps quiet (timers_insertOne doc).
Proof.
  unfold timers_insertOne. quiet_step; [apply external_keeps_quiet|].
  intros w. unfold quiet. simpl. tauto.
Qed.

Lemma timers_findOneAndUpdate_keeps_quiet q u :
  keeps quiet (timers_findOneAndUpdate q u).
Proof.
  unfold timers_findOneAndUpdate. quiet_step; [apply external_keeps_quiet|].
  intros w. destruct (update_first q u (timers (db w))). unfold quiet. simpl. tauto.
Qed.

Lemma sessions_findOne_keeps_quiet q : keeps quiet (sessions_findOne q).
Proof.
  unfold sessions_findOne. quiet_step; [apply external_keeps_quiet|].
  intros w. apply quiet_refl.
Qed.

Lemma users_findOne_keeps_quiet q : keeps quiet (users_findOne q).
Proof.
  unfold users_findOne. quiet_step; [apply external_keeps_quiet|].
  intros w. apply quiet_refl.
Qed.

Lemma findUserBySessionId_keeps_quiet s : keeps quiet (findUserBySessionId s).
Proof.
  unfold findUserBySessionId. quiet_step; [apply sessions_findOne_keeps_quiet|].
  destruct a; [apply users_findOne_keeps_quiet|quiet_step].
Qed.

Lemma createTimer_keeps_quiet u d : keeps quiet (createTimer u d).
Proof.
  unfold createTimer. quiet_step; [apply Date_now_keeps_quiet|].
  apply timers_insertOne_keeps_quiet.
Qed.

Lemma stopTimer_keeps_quiet i u : keeps quiet (stopTimer i u).
Proof.
  unfold stopTimer. quiet_step; [apply Date_now_keeps_quiet|].
  quiet_step; [apply timers_findOneAndUpdate_keeps_quiet|].
  destruct a0; quiet_step.
Qed.

Lemma fetchAllTimers_keeps_quiet o : keeps quiet (fetchAllTimers o).
Proof.
  unfold fetchAllTimers. quiet_step; [apply timers_find_keeps_quiet|].
  quiet_step. apply TimerViewModel_keeps_quiet.
Qed.

Lemma fetchActiveTimers_keeps_quiet o : keeps quiet (fetchActiveTimers o).
Proof.
  unfold fetchActiveTimers. quiet_step; [apply timers_find_keeps_quiet|].
  quiet_step. apply TimerViewModel_keeps_quiet.
Qed.

Lemma clients_get_keeps_quiet u : keeps quiet (clients_get u).
Proof. intros w. apply quiet_refl. Qed.

(** A send goes to the socket registered under the key, or nowhere. *)
Lemma get_send_keeps_pushes u msg :
  keeps pushes (x <- clients_get u ;; send x msg).
Proof.
  intros w. unfold bind, clients_get.
  destruct (Map_get u (clients w)) as [c|] eqn:E; simpl; [|apply pushes_refl].
  unfold bind, external. destruct (faults w) as [|[] fs]; simpl;
    unfold pushes; simpl; repeat split.
  - exists [(c, msg)]. split; [reflexivity|].
    constructor; [|constructor]. simpl. eapply Map_get_Some_value; eauto.
  - exists []. split; [now rewrite app_nil_r|constructor].
  - exists [(c, msg)]. split; [reflexivity|].
    constructor; [|constructor]. simpl. eapply Map_get_Some_value; eauto.
Qed.

(** Without an entry under the key the send throws and nothing is sent. *)
Lemma get_send_unregistered u msg w :
  Map_get u (clients w) = None ->
  (x <- clients_get u ;; send x msg) w = (Throw TypeError, w).
Proof. intros H. unfold bind, clients_get. now rewrite H. Qed.

Lemma pushes_delivered c w w' :
  pushes w w' -> ~ In c (Map_values (clients w)) -> delivered c w' = delivered c w.
Proof.
  intros (_ & _ & _ & l & Hw & Hl) Hc. unfold delivered. rewrite Hw, filter_app, map_app.
  match goal with
  | |- context [filter ?f l] => assert (Hnil : filter f l = [])
  end.
  { clear Hw. induction l as [|e l IH]; simpl; [reflexivity|].
    inversion Hl as [|? ? He Hl']; subst.
    match goal with
    | |- (if ?b then _ else _) = _ => destruct b eqn:E
    end.
    - apply Nat.eqb_eq in E. subst c. contradiction.
    - now apply IH. }
  rewrite Hnil. simpl. now rewrite app_nil_r.
Qed.

Lemma pushes_WF w w' : pushes w w' -> WF w -> WF w'.
Proof.
  intros (Hc & _ & Hn & _) H. unfold WF. now rewrite Hc, Hn.
Qed.

Lemma pushes_orphan c w w' : pushes w w' -> orphan c w -> orphan c w'.
Proof.
  intros (Hc & _ & Hn & _) [H1 H2]. unfold orphan. now rewrite Hc, Hn.
Qed.

Section DriverFrames.
Variable ObjectId : string -> option oid.
Variable toString : oid -> string.

Lemma ObjectId_of_keeps_quiet s : keeps quiet (ObjectId_of ObjectId s).
Proof. unfold ObjectId_of. destruct (ObjectId s); quiet_step. Qed.

Lemma auth_keeps_quiet req : keeps quiet (auth req).
Proof.
  unfold auth. destruct (cookie "sessionId" (cookies req)) as [s|]; [|quiet_step].
  destruct (String.eqb s ""); [quiet_step|apply findUserBySessionId_keeps_quiet].
Qed.

Lemma sendAllTimersMsg_keeps_pushes u : keeps pushes (sendAllTimersMsg ObjectId u).
Proof.
  unfold sendAllTimersMsg.
  apply (keeps_bind pushes pushes_trans);
    [apply keeps_quiet_pushes, ObjectId_of_keeps_quiet|intros o].
  apply (keeps_bind pushes pushes_trans);
    [apply keeps_quiet_pushes, fetchAllTimers_keeps_quiet|intros ts].
  apply get_send_keeps_pushes.
Qed.

Lemma sendActiveTimersMsg_keeps_pushes u :
  keeps pushes (sendActiveTimersMsg ObjectId u).
Proof.
  unfold sendActiveTimersMsg.
  apply (keeps_bind pushes pushes_trans);
    [apply keeps_quiet_pushes, ObjectId_of_keeps_quiet|intros o].
  apply (keeps_bind pushes pushes_trans);
    [apply keeps_quiet_pushes, fetchActiveTimers_keeps_quiet|intros ts].
  apply get_send_keeps_pushes.
Qed.

Lemma post_api_timers_keeps_pushes req :
  keeps pushes (post_api_timers ObjectId toString req).
Proof.
  unfold post_api_timers.
  apply (keeps_bind pushes pushes_trans);
    [apply keeps_quiet_pushes, auth_keeps_quiet|intros [u|]].
  - apply (keeps_bind pushes pushes_trans);
      [apply keeps_quiet_pushes, createTimer_keeps_quiet|intros i].
    apply (keeps_bind pushes pushes_trans);
      [apply sendAllTimersMsg_keeps_pushes|intros _].
    apply (keeps_ret pushes pushes_refl).
  - apply (keeps_ret pushes pushes_refl).
Qed.

Lemma post_api_timers_stop_keeps_pushes req :
  keeps pushes (post_api_timers_stop ObjectId toString req).
Proof.
  unfold post_api_timers_stop.
  apply (keeps_bind pushes pushes_trans);
    [apply keeps_quiet_pushes, auth_keeps_quiet|intros [u|]].
  - apply (keeps_bind pushes pushes_trans);
      [apply keeps_quiet_pushes, ObjectId_of_keeps_quiet|intros i].
    apply (keeps_bind pushes pushes_trans);
      [apply keeps_quiet_pushes, stopTimer_keeps_quiet|intros [|]].
    + apply (keeps_bind pushes pushes_trans);
        [apply sendAllTimersMsg_keeps_pushes|intros _].
      apply (keeps_ret pushes pushes_refl).
    + apply (keeps_ret pushes pushes_refl).
  - apply (keeps_ret pushes pushes_refl).
Qed.

Lemma tick_keeps_pushes : keeps pushes (tick ObjectId).
Proof.
  intros w. unfold tick.
  apply (keeps_forOf pushes pushes_refl pushes_trans).
  apply sendActiveTimersMsg_keeps_pushes.
Qed.

Lemma connection_pushes c v w :
  pushes (registered c v w) (snd (connection ObjectId c v w)).
Proof.
  unfold connection, bind. fold (registered c v w).
  apply sendAllTimersMsg_keeps_pushes.
Qed.

(** The three ways an upgrade request ends. *)
Lemma upgrade_cases req w :
  (headers_cookie req = None /\ upgrade ObjectId req w = (Throw TypeError, w)) \/
  (exists jar, headers_cookie req = Some jar /\
     truthy (cookie "userId" jar) = false /\
     upgrade ObjectId req w = (Ok (Refused unauthorized), w)) \/
  (exists jar v, headers_cookie req = Some jar /\
     cookie "userId" jar = Some v /\ v <> "" /\
     upgrade ObjectId req w =
       (Ok (Upgraded (next_ws w)),
        snd (connection ObjectId (next_ws w) v (set_next_ws (S (next_ws w)) w)))).
Proof.
  unfold upgrade. destruct (headers_cookie req) as [jar|]; [|left; now split].
  right. unfold cookie_parse, bind, ret.
  destruct (cookie "userId" jar) as [v|] eqn:Ec; simpl.
  - destruct (String.eqb v "") eqn:E; simpl.
    + left. exists jar. rewrite Ec. simpl. rewrite E. now repeat split.
    + right. exists jar, v. split; [reflexivity|]. split; [assumption|].
      split; [|reflexivity]. intros ->. discriminate.
  - left. exists jar. rewrite Ec. now repeat split.
Qed.

Lemma close_cases c w :
  close c w = (Ok tt, w) \/
  exists v, In (c, v) (listeners w) /\
    close c w =
      (Ok tt, set_listeners
                (filter (fun l : ws * string => negb (Nat.eqb (fst l) c)) (listeners w))
                (set_clients (Map_delete v (clients w)) w)).
Proof.
  unfold close.
  destruct (find (fun l : ws * string => Nat.eqb (fst l) c) (listeners w))
    as [[c' v]|] eqn:E; [|now left].
  right. exists v. split; [|reflexivity].
  apply find_some in E. destruct E as [Hin Heq]. simpl in Heq.
  apply Nat.eqb_eq in Heq. now subst.
Qed.

Lemma step_WF e w : WF w -> WF (step ObjectId toString e w).
Proof.
  intros HW. destruct e as [req|c| |req|req|ms|fs]; simpl.
  - destruct (upgrade_cases req w) as [[_ ->]|[(jar & _ & _ & ->)|(jar & v & _ & _ & _ & ->)]];
      simpl; try assumption.
    eapply pushes_WF; [apply connection_pushes|].
    destruct HW as (H1 & H3 & H2). rewrite Forall_forall in H2.
    split; [|split]; simpl.
    + now apply Map_set_NoDup.
    + apply Map_set_values_NoDup; [assumption|].
      intros Hx. specialize (H2 _ Hx). simpl in H2. lia.
    + apply Forall_forall. intros x Hx. apply Map_values_set_in in Hx.
      destruct Hx as [->|Hx]; [lia|].
      specialize (H2 x Hx). simpl in H2. lia.
  - destruct (close_cases c w) as [->|(v & _ & ->)]; simpl; [assumption|].
    destruct HW as (H1 & H3 & H2). split; [|split]; simpl.
    + now apply Map_delete_NoDup.
    + now apply Map_delete_values_NoDup.
    + apply Forall_forall. intros x Hx. apply Map_values_delete_in in Hx.
      rewrite Forall_forall in H2. now apply H2.
  - eapply pushes_WF; [apply tick_keeps_pushes|assumption].
  - eapply pushes_WF; [apply post_api_timers_keeps_pushes|assumption].
  - eapply pushes_WF; [apply post_api_timers_stop_keeps_pushes|assumption].
  - exact HW.
  - exact HW.
Qed.

Lemma run_WF es w : WF w -> WF (run ObjectId toString es w).
Proof.
  revert w. induction es as [|e es IH]; simpl; intros w HW; [assumption|].
  apply IH. now apply step_WF.
Qed.

(** A socket that no key leads to stays that way and is sent nothing. *)
Lemma step_orphan c0 e w :
  orphan c0 w ->
  orphan c0 (step ObjectId toString e w) /\
  delivered c0 (step ObjectId toString e w) = delivered c0 w.
Proof.
  intros HO.
  assert (Hpush : forall w', pushes w w' -> orphan c0 w' /\ delivered c0 w' = delivered c0 w).
  { intros w' Hp. split; [now apply (pushes_orphan c0 w)|].
    apply pushes_delivered; [assumption|apply HO]. }
  destruct e as [req|c| |req|req|ms|fs]; simpl.
  - destruct (upgrade_cases req w) as [[_ ->]|[(jar & _ & _ & ->)|(jar & v & _ & _ & _ & ->)]];
      simpl; try (split; [assumption|reflexivity]).
    set (w1 := set_next_ws (S (next_ws w)) w).
    assert (HO2 : orphan c0 (registered (next_ws w) v w1)).
    { destruct HO as [H1 H2]. split; simpl; [lia|].
      intros Hx. apply Map_values_set_in in Hx. destruct Hx as [->|Hx]; [lia|tauto]. }
    pose proof (connection_pushes (next_ws w) v w1) as Hp. split.
    + now apply (pushes_orphan c0 _ _ Hp).
    + rewrite (pushes_delivered c0 _ _ Hp); [reflexivity|apply HO2].
  - destruct (close_cases c w) as [->|(v & _ & ->)]; simpl; [now split|].
    split; [|reflexivity].
    destruct HO as [H1 H2]. split; simpl; [assumption|].
    intros Hx. apply Map_values_delete_in in Hx. tauto.
  - apply Hpush, tick_keeps_pushes.
  - apply Hpush, post_api_timers_keeps_pushes.
  - apply Hpush, post_api_timers_stop_keeps_pushes.
  - now split.
  - now split.
Qed.

Lemma run_orphan c0 es w :
  orphan c0 w ->
  orphan c0 (run ObjectId toString es w) /\
  delivered c0 (run ObjectId toString es w) = delivered c0 w.
Proof.
  revert w. induction es as [|e es IH]; simpl; intros w HO; [now split|].
  destruct (step_orphan c0 e w HO) as [HO' Hd].
  destruct (IH _ HO') as [HO'' Hd']. split; [assumption|congruence].
Qed.

End DriverFrames.

(** ** The timer view model *)

(** C4.  Whatever the timer record and the instant the clock shows, the
    constructor returns a view whose [isActive] says that the record has no
    [end], and which carries exactly one of [progress] and [duration]:
    [progress], the clock reading minus [start], when the timer runs;
    [duration], [end] minus [start], when it is stopped. *)
Theorem TimerViewModel_progress_xor_duration (t : Timer.t) (w : World) :
  exists v,
    TimerViewModel t w = (Ok v, w) /\
    View.isActive v = absent (Timer.end_ t) /\
    xorb (present (View.progress v)) (present (View.duration v)) = true /\
    View.progress v =
      (if View.isActive v then Some (now w - Timer.start t)%Z else None) /\
    View.duration v =
      match Timer.end_ t with
      | Some e => Some (e - Timer.start t)%Z
      | None => None
      end.
Proof.
  exists (view_at (now w) t). split; [apply TimerViewModel_view_at|].
  unfold view_at. destruct (Timer.end_ t) as [e|]; simpl; repeat split.
Qed.

(** C5, as the code has it.  The view is determined by the timer record and
    the reading of the clock at construction, which the constructor takes
    itself; constructing a view changes nothing in the world.  Two
    constructions from the same record under the same clock reading give the
    same view. *)
Theorem TimerViewModel_determined_by_record_and_clock (t : Timer.t) (w1 w2 : World) :
  now w1 = now w2 ->
  fst (TimerViewModel t w1) = fst (TimerViewModel t w2) /\
  fst (TimerViewModel t w1) = Ok (view_at (now w1) t) /\
  snd (TimerViewModel t w1) = w1 /\
  snd (TimerViewModel t w2) = w2.
Proof.
  intros H. rewrite !TimerViewModel_view_at. simpl. rewrite H. now repeat split.
Qed.

Lemma TimerViewModel_determined_by_record_and_clock_witness :
  now offline = now online /\
  fst (TimerViewModel write_spec offline) = fst (TimerViewModel write_spec online).
Proof.
  split; [reflexivity|].
  apply (TimerViewModel_determined_by_record_and_clock write_spec offline online).
  reflexivity.
Defined.

(** C5, as stated, fails: the constructor is handed the record only, and the
    same record yields different views once the clock has moved. *)
Lemma TimerViewModel_reads_the_clock :
  fst (TimerViewModel write_spec offline) <>
  fst (TimerViewModel write_spec (set_now 6000%Z offline)).
Proof. vm_compute. discriminate. Qed.

(** ** Pushing to a user who has no socket *)

Section Unregistered.
Variable ObjectId : string -> option oid.
Variable toString : oid -> string.

Lemma snd_quiet {A} (m : M A) w r w' : keeps quiet m -> m w = (r, w') -> quiet w w'.
Proof. intros H E. specialize (H w). now rewrite E in H. Qed.

Lemma sendAllTimersMsg_unregistered userId w :
  Map_get userId (clients w) = None ->
  exists e w', sendAllTimersMsg ObjectId userId w = (Throw e, w') /\ quiet w w'.
Proof.
  intros Hc. unfold sendAllTimersMsg, ObjectId_of.
  destruct (ObjectId userId) as [o|].
  - unfold bind at 1. unfold ret.
    destruct (fetchAllTimers o w) as [[ts|e] w'] eqn:E;
      pose proof (snd_quiet _ _ _ _ (fetchAllTimers_keeps_quiet o) E) as Hq.
    + rewrite (bind_Ok _ _ _ _ _ E).
      exists TypeError, w'. split; [|assumption].
      apply get_send_unregistered. destruct Hq as (_ & -> & _). assumption.
    + rewrite (bind_Throw _ _ _ _ _ E). now exists e, w'.
  - exists BSONTypeError, w. split; [reflexivity|apply quiet_refl].
Qed.




End Unregistered.




(** ** Stopping a timer *)

Lemma update_first_fst q u l :
  fst (update_first q u l) = option_map u (find q l).
Proof.
  induction l as [|t l IH]; simpl; [reflexivity|].
  destruct (q t); [reflexivity|].
  destruct (update_first q u l). exact IH.
Qed.

Lemma update_first_none q u l :
  find q l = None -> update_first q u l = (None, l).
Proof.
  induction l as [|t l IH]; simpl; [reflexivity|].
  destruct (q t); [discriminate|].
  intros H. now rewrite (IH H).
Qed.

Lemma update_first_find q u l :
  (forall t, q (u t) = q t) ->
  find q (snd (update_first q u l)) = option_map u (find q l).
Proof.
  intros Hq. induction l as [|t l IH]; simpl; [reflexivity|].
  destruct (q t) eqn:E; simpl.
  - now rewrite Hq, E.
  - destruct (update_first q u l). simpl in *. now rewrite E.
Qed.

Lemma set_timers_same w : set_db (set_timers (timers (db w)) (db w)) w = w.
Proof. destruct w as [n f [us ss ts o] c l nw wi]. reflexivity. Qed.

Lemma stopTimer_quiet i userId w :
  faults w = [] ->
  stopTimer i userId w =
    (Ok (present
           (find (fun t => N.eqb (Timer._id t) i && N.eqb (Timer.userId t) userId)
              (timers (db w)))),
     set_db
       (set_timers
          (snd (update_first
                  (fun t => N.eqb (Timer._id t) i && N.eqb (Timer.userId t) userId)
                  (fun t => Timer.mk (Timer._id t) (Timer.userId t)
                              (Timer.description t) (Timer.start t) (Some (now w)))
                  (timers (db w))))
          (db w)) w).
Proof.
  intros Hf. unfold stopTimer, Date_now, timers_findOneAndUpdate.
  unfold bind at 1. unfold bind at 1.
  rewrite (bind_Ok _ _ _ _ _ (external_quiet MongoError w Hf)).
  match goal with
  | |- context [update_first ?q ?u ?l] =>
      pose proof (update_first_fst q u l) as Hfst;
      destruct (update_first q u l) as [r ts] eqn:E
  end.
  simpl in Hfst. subst r. simpl.
  match goal with
  | |- context [find ?q ?l] => destruct (find q l)
  end; reflexivity.
Qed.

(** C2, as stated, fails.  Alice stops her running timer at 5000 and, one
    second later, stops it again: the second call returns [true] as well,
    moves [end] from 5000 to 6000, and the route answers 204 and pushes
    a second [all_timers] message to her socket. *)
Lemma stopTimer_twice_true_twice :
  let w1 := step hexObjectId hexString (EPostStop alice_stops) online in
  let w2 := step hexObjectId hexString (EElapse 1000) w1 in
  fst (stopTimer 1%N 7%N online) = Ok true /\
  fst (stopTimer 1%N 7%N w2) = Ok true /\
  fst (stopTimer 1%N 7%N w2) <> Ok false /\
  map Timer.end_ (timers (db w1)) = [Some 5000%Z] /\
  fst (post_api_timers_stop hexObjectId hexString alice_stops w2) = Ok (sendStatus 204) /\
  map Timer.end_
    (timers (db (snd (post_api_timers_stop hexObjectId hexString alice_stops w2))))
    = [Some 6000%Z] /\
  List.length (delivered 0 w2) = 1 /\
  List.length
    (delivered 0 (snd (post_api_timers_stop hexObjectId hexString alice_stops w2))) = 2.
Proof. vm_compute. repeat split; discriminate. Qed.

(** ** The registry *)

Lemma WF_init : WF init.
Proof. unfold WF, init. simpl. repeat split; constructor. Qed.

Section Registry.
Variable ObjectId : string -> option oid.
Variable toString : oid -> string.

(** An upgrade request whose [userId] cookie is a non-empty string is
    accepted: the new socket is registered under the cookie's value, and its
    "close" listener remembers that value. *)
Lemma upgrade_registers jar v w :
  cookie "userId" jar = Some v -> v <> "" ->
  fst (upgrade ObjectId (mkUpgrade (Some jar)) w) = Ok (Upgraded (next_ws w)) /\
  pushes (registered (next_ws w) v (set_next_ws (S (next_ws w)) w))
    (snd (upgrade ObjectId (mkUpgrade (Some jar)) w)).
Proof.
  intros Hc Hv. unfold upgrade. simpl. rewrite bind_ret_l. rewrite Hc. simpl.
  destruct (String.eqb v "") eqn:E.
  - apply String.eqb_eq in E. contradiction.
  - simpl. split; [reflexivity|]. apply connection_pushes.
Qed.

Lemma upgrade_registers_fields jar v w :
  cookie "userId" jar = Some v -> v <> "" ->
  clients (snd (upgrade ObjectId (mkUpgrade (Some jar)) w))
    = Map_set v (next_ws w) (clients w) /\
  listeners (snd (upgrade ObjectId (mkUpgrade (Some jar)) w))
    = (next_ws w, v) :: listeners w /\
  next_ws (snd (upgrade ObjectId (mkUpgrade (Some jar)) w)) = S (next_ws w).
Proof.
  intros Hc Hv.
  destruct (upgrade_registers jar v w Hc Hv) as (_ & H1 & H2 & H3 & _).
  rewrite H1, H2, H3. now repeat split.
Qed.

End Registry.

(** C3.  The registry never holds more than one entry for a key.  When a
    socket is registered for a [userId] that already has one, the entry is
    overwritten: [get] returns the new socket, it is the only entry of that
    key, and nothing more is sent to the old socket, which was not closed:
    not by the push that the registration itself makes, and not by anything
    that happens afterwards. *)
Theorem registry_last_connection_wins
  (ObjectId : string -> option oid) (toString : oid -> string)
  (w : World) (jar : list (string * string)) (v : string) (c_old : ws) :
  WF w ->
  cookie "userId" jar = Some v -> v <> "" ->
  Map_get v (clients w) = Some c_old ->
  Map_get v (clients (step ObjectId toString (EUpgrade (mkUpgrade (Some jar))) w))
    = Some (next_ws w) /\
  next_ws w <> c_old /\
  Map_count v (clients (step ObjectId toString (EUpgrade (mkUpgrade (Some jar))) w)) = 1 /\
  listeners (step ObjectId toString (EUpgrade (mkUpgrade (Some jar))) w)
    = (next_ws w, v) :: listeners w /\
  (forall es k,
     Map_count k (clients (run ObjectId toString es
        (step ObjectId toString (EUpgrade (mkUpgrade (Some jar))) w))) <= 1) /\
  (forall es,
     delivered c_old (run ObjectId toString es
        (step ObjectId toString (EUpgrade (mkUpgrade (Some jar))) w))
     = delivered c_old (step ObjectId toString (EUpgrade (mkUpgrade (Some jar))) w)) /\
  (forall es k, Map_count k (clients (run ObjectId toString es init)) <= 1) /\
  delivered c_old (step ObjectId toString (EUpgrade (mkUpgrade (Some jar))) w)
    = delivered c_old w /\
  (forall es,
     delivered c_old (run ObjectId toString
        (EUpgrade (mkUpgrade (Some jar)) :: es) w)
     = delivered c_old w).
Proof.
  intros HW Hc Hv Hg.
  pose proof (step_WF ObjectId toString (EUpgrade (mkUpgrade (Some jar))) w HW) as HW1.
  simpl in *.
  destruct (upgrade_registers_fields ObjectId jar v w Hc Hv) as (H1 & H2 & H3).
  destruct HW as (Hk & Hvs & Hlt).
  assert (Hold : c_old < next_ws w).
  { rewrite Forall_forall in Hlt. apply Hlt. eapply Map_get_Some_value; eauto. }
  split; [rewrite H1; apply Map_get_set_same|].
  split; [lia|].
  split; [rewrite H1; now apply Map_count_set_same|].
  split; [exact H2|].
  assert (Hrun : forall es,
            delivered c_old (run ObjectId toString es
                               (snd (upgrade ObjectId (mkUpgrade (Some jar)) w)))
            = delivered c_old (snd (upgrade ObjectId (mkUpgrade (Some jar)) w))).
  { intros es. apply run_orphan. split.
    + rewrite H3. lia.
    + rewrite H1. intros Hin.
      pose proof (Map_set_drops_old v (next_ws w) c_old (clients w) Hvs Hg Hin). lia. }
  assert (Hstep : delivered c_old (snd (upgrade ObjectId (mkUpgrade (Some jar)) w))
                  = delivered c_old w).
  { destruct (upgrade_registers ObjectId jar v w Hc Hv) as (_ & Hp).
    rewrite (pushes_delivered c_old _ _ Hp); [reflexivity|].
    simpl. intros Hin.
    pose proof (Map_set_drops_old v (next_ws w) c_old (clients w) Hvs Hg Hin). lia. }
  split; [|split; [|split; [|split]]].
  - intros es k. apply Map_count_le_1.
    apply (run_WF ObjectId toString es _ HW1).
  - exact Hrun.
  - intros es k. apply Map_count_le_1.
    apply (run_WF ObjectId toString es _ WF_init).
  - exact Hstep.
  - intros es. now rewrite Hrun.
Qed.

Lemma registry_last_connection_wins_witness :
  WF online /\
  Map_get alice_key
    (clients (step hexObjectId hexString (EUpgrade alice_connects) online)) = Some 2.
Proof.
  assert (HW : WF online).
  { unfold WF, online. simpl. repeat split.
    - constructor; [simpl; intros [H|[]]; discriminate|].
      constructor; [intros []|constructor].
    - constructor; [simpl; intros [H|[]]; discriminate|].
      constructor; [intros []|constructor].
    - repeat constructor. }
  split; [exact HW|].
  apply (registry_last_connection_wins hexObjectId hexString online
           [("sessionId", "s-alice"); ("userId", alice_key)] alice_key 0 HW).
  - reflexivity.
  - discriminate.
  - reflexivity.
Defined.



(** ** The upgrade gate *)

(** With a Cookie header that has no [userId], or an empty one, the upgrade
    is refused with a 401 and the socket destroyed; nothing else happens. *)
Lemma upgrade_refuses_missing_userId (ObjectId : string -> option oid) jar w :
  truthy (cookie "userId" jar) = false ->
  upgrade ObjectId (mkUpgrade (Some jar)) w = (Ok (Refused unauthorized), w).
Proof.
  intros H. unfold upgrade. simpl. rewrite bind_ret_l. now rewrite H.
Qed.

(** C6, where the code departs from it.  An upgrade request that carries no
    Cookie header at all lacks the [userId] cookie, yet it is not answered
    with a 401: [cookie.parse] is handed [undefined] and throws before the
    check, so the handler writes nothing and does not destroy the socket.
    No registry entry is created.  When the request does carry a Cookie
    header and [userId] is missing from it or empty, the upgrade is refused
    with the 401 and the world is left as it was. *)
Theorem upgrade_without_cookie_header_throws
  (ObjectId : string -> option oid) (w : World) :
  upgrade ObjectId (mkUpgrade None) w = (Throw TypeError, w) /\
  fst (upgrade ObjectId (mkUpgrade None) w) <> Ok (Refused unauthorized) /\
  clients (snd (upgrade ObjectId (mkUpgrade None) w)) = clients w /\
  (forall jar,
     truthy (cookie "userId" jar) = false ->
     upgrade ObjectId (mkUpgrade (Some jar)) w = (Ok (Refused unauthorized), w)).
Proof.
  split; [reflexivity|]. split; [discriminate|]. split; [reflexivity|].
  intros jar H. now apply upgrade_refuses_missing_userId.
Qed.

(** ** What the pushes do not look at *)

Lemma blind_ret {A} (a : A) : blind (ret a).
Proof. intros us ss w. reflexivity. Qed.

Lemma blind_throw {A} e : blind (@throw A e).
Proof. intros us ss w. reflexivity. Qed.

Lemma blind_bind {A B} (m : M A) (f : A -> M B) :
  blind m -> (forall a, blind (f a)) -> blind (bind m f).
Proof.
  intros Hm Hf us ss w. unfold bind. rewrite Hm.
  destruct (m w) as [[a|e] w']; simpl; [apply Hf|reflexivity].
Qed.

Lemma blind_mapM {A B} (f : A -> M B) l : (forall a, blind (f a)) -> blind (mapM f l).
Proof.
  intros Hf. induction l as [|a l IH]; simpl; [apply blind_ret|].
  apply blind_bind; [apply Hf|intros b].
  apply blind_bind; [exact IH|intros bs; apply blind_ret].
Qed.

Lemma blind_external e : blind (external e).
Proof.
  intros us ss w. unfold external. simpl.
  destruct (faults w) as [|[] fs]; reflexivity.
Qed.

Lemma blind_TimerViewModel t : blind (TimerViewModel t).
Proof. intros us ss w. now rewrite !TimerViewModel_view_at. Qed.

Lemma blind_timers_find q : blind (timers_find q).
Proof.
  unfold timers_find. apply blind_bind; [apply blind_external|intros _].
  intros us ss w. reflexivity.
Qed.

Lemma blind_fetchAllTimers o : blind (fetchAllTimers o).
Proof.
  unfold fetchAllTimers. apply blind_bind; [apply blind_timers_find|intros ts].
  apply blind_mapM, blind_TimerViewModel.
Qed.

Lemma blind_send x msg : blind (send x msg).
Proof.
  destruct x as [c|]; simpl; [|apply blind_throw].
  apply blind_bind; [apply blind_external|intros _].
  intros us ss w. reflexivity.
Qed.

Section Gate.
Variable ObjectId : string -> option oid.

Lemma blind_sendAllTimersMsg u : blind (sendAllTimersMsg ObjectId u).
Proof.
  unfold sendAllTimersMsg. apply blind_bind.
  - unfold ObjectId_of. destruct (ObjectId u); [apply blind_ret|apply blind_throw].
  - intros o. apply blind_bind; [apply blind_fetchAllTimers|intros ts].
    apply blind_bind; [|intros x; apply blind_send].
    intros us ss w. reflexivity.
Qed.

Lemma blind_connection c v : blind (connection ObjectId c v).
Proof.
  unfold connection. apply blind_bind; [|intros _; apply blind_sendAllTimersMsg].
  intros us ss w. reflexivity.
Qed.

Lemma blind_upgrade req : blind (upgrade ObjectId req).
Proof.
  unfold upgrade. apply blind_bind.
  - unfold cookie_parse. destruct (headers_cookie req); [apply blind_ret|apply blind_throw].
  - intros jar. destruct (negb (truthy (cookie "userId" jar))); [apply blind_ret|].
    intros us ss w. simpl.
    change (set_next_ws (S (next_ws w)) (set_identity us ss w))
      with (set_identity us ss (set_next_ws (S (next_ws w)) w)).
    now rewrite blind_connection.
Qed.

End Gate.

(** C9.  Any non-empty string [v] in the [userId] cookie gets the upgrade
    accepted and the new socket registered under [v]; the users and sessions
    in the store play no part in it.  From then on, and as long as the entry
    stands, a push for [v] is sent to that socket: the snapshot of all the
    timers, and the snapshot of the running timers, of the user whose object
    id [v] denotes. *)
Theorem upgrade_trusts_userId_cookie
  (ObjectId : string -> option oid)
  (w : World) (jar : list (string * string)) (v : string) :
  cookie "userId" jar = Some v -> v <> "" ->
  fst (upgrade ObjectId (mkUpgrade (Some jar)) w) = Ok (Upgraded (next_ws w)) /\
  Map_get v (clients (snd (upgrade ObjectId (mkUpgrade (Some jar)) w)))
    = Some (next_ws w) /\
  (forall us ss,
     upgrade ObjectId (mkUpgrade (Some jar)) (set_identity us ss w)
     = (Ok (Upgraded (next_ws w)),
        set_identity us ss (snd (upgrade ObjectId (mkUpgrade (Some jar)) w)))) /\
  (forall o w',
     ObjectId v = Some o -> faults w' = [] ->
     Map_get v (clients w') = Some (next_ws w) ->
     sendAllTimersMsg ObjectId v w'
     = (Ok tt,
        set_wire (wire w' ++
          [(next_ws w,
            Msg.mk "all_timers"
              (map (view_at (now w')) (filter (owned_by o) (timers (db w')))))]) w') /\
     sendActiveTimersMsg ObjectId v w'
     = (Ok tt,
        set_wire (wire w' ++
          [(next_ws w,
            Msg.mk "active_timers"
              (map (view_at (now w'))
                 (filter (fun t => owned_by o t && end_is_null t)
                    (timers (db w')))))]) w')).
Proof.
  intros Hc Hv.
  destruct (upgrade_registers ObjectId jar v w Hc Hv) as (Hf & Hp).
  destruct (upgrade_registers_fields ObjectId jar v w Hc Hv) as (C & _ & _).
  split; [exact Hf|].
  split; [rewrite C; apply Map_get_set_same|].
  split.
  - intros us ss. rewrite blind_upgrade. now rewrite Hf.
  - intros o w' Ho Hq Hg. split.
    + now apply sendAllTimersMsg_quiet.
    + now apply sendActiveTimersMsg_quiet.
Qed.

Lemma upgrade_trusts_userId_cookie_witness :
  cookie "userId" [("userId", bob_key)] = Some bob_key /\
  Map_get bob_key
    (clients (snd (upgrade hexObjectId (mkUpgrade (Some [("userId", bob_key)])) offline)))
    = Some 0.
Proof.
  split; [reflexivity|].
  apply (upgrade_trusts_userId_cookie hexObjectId offline [("userId", bob_key)] bob_key).
  - reflexivity.
  - discriminate.
Defined.

(** ** The ticker *)


Section Ticker.
Variable ObjectId : string -> option oid.

(** With no failure ahead, a walk over registry entries sends each socket
    the running timers of its key, in order. *)
Lemma forOf_sendActiveTimersMsg_quiet l w :
  faults w = [] ->
  (forall k c, In (k, c) l -> Map_get k (clients w) = Some c /\ ObjectId k <> None) ->
  forOf (Map_keys l) (sendActiveTimersMsg ObjectId) w =
    (Ok tt,
     set_wire (wire w ++
       map (fun e => (snd e, Msg.mk "active_timers" (active_snapshot ObjectId w (fst e)))) l)
       w).
Proof.
  revert w. induction l as [|[k c] l IH]; intros w Hf Hl.
  - simpl. unfold ret. rewrite app_nil_r. now destruct w.
  - destruct (Hl k c (or_introl eq_refl)) as [Hg Ho].
    destruct (ObjectId k) as [o|] eqn:Eo; [|congruence].
    cbn [Map_keys map fst forOf].
    rewrite (bind_Ok _ _ _ _ _ (sendActiveTimersMsg_quiet ObjectId k o c w Hf Eo Hg)).
    fold (Map_keys l). rewrite IH.
    + f_equal. cbn [map fst snd]. unfold active_snapshot at 2. rewrite Eo.
      unfold set_wire. simpl. now rewrite <- app_assoc.
    + exact Hf.
    + intros k' c' Hin. apply (Hl k' c'). now right.
Qed.

Lemma tick_quiet w :
  faults w = [] -> WF w ->
  (forall k, In k (Map_keys (clients w)) -> ObjectId k <> None) ->
  tick ObjectId w =
    (Ok tt,
     set_wire (wire w ++
       map (fun e => (snd e, Msg.mk "active_timers" (active_snapshot ObjectId w (fst e))))
         (clients w)) w).
Proof.
  intros Hf HW Hk. unfold tick. apply forOf_sendActiveTimersMsg_quiet; [exact Hf|].
  intros k c Hin. split.
  - apply Map_get_entry; [apply HW|exact Hin].
  - apply Hk. unfold Map_keys. apply in_map_iff. now exists (k, c).
Qed.


End Ticker.




(** ** Worked runs *)

(** The driver instance reads back what it prints, and rejects other text. *)
Example hexObjectId_hexString :
  hexString 7%N = alice_key /\
  hexObjectId alice_key = Some 7%N /\
  hexObjectId "guest" = None.
Proof. vm_compute. repeat split. Qed.

(** Alice, connected, starts a timer: 201 with the new id, and her socket is
    sent every timer of hers; with the clock standing still during the run,
    the new one shows no progress yet. *)
Example alice_starts_a_timer :
  post_api_timers hexObjectId hexString alice_starts online
  = (Ok (status_send_id 201 2%N),
     snd (post_api_timers hexObjectId hexString alice_starts online)) /\
  delivered 0 (snd (post_api_timers hexObjectId hexString alice_starts online))
  = [Msg.mk "all_timers"
       [View.mk 1%N 7%N "write spec" 0%Z None true (Some 5000%Z) None;
        View.mk 2%N 7%N "read mail" 5000%Z None true (Some 0%Z) None]] /\
  delivered 1 (snd (post_api_timers hexObjectId hexString alice_starts online)) = [].
Proof. vm_compute. repeat split. Qed.

(** One second later the tick sends each socket the running timers of its
    user. *)
Example tick_one_second_later :
  let w := run hexObjectId hexString [EPostTimers alice_starts; EElapse 1000] online in
  delivered 0 (snd (tick hexObjectId w))
  = (delivered 0 w ++
    [Msg.mk "active_timers"
       [View.mk 1%N 7%N "write spec" 0%Z None true (Some 6000%Z) None;
        View.mk 2%N 7%N "read mail" 5000%Z None true (Some 1000%Z) None]])%list.
Proof. vm_compute. reflexivity. Qed.

(** Alice stops her first timer: 204, and the view sent has a duration and no
    progress. *)
Example alice_stops_her_timer :
  fst (post_api_timers_stop hexObjectId hexString alice_stops online)
  = Ok (sendStatus 204) /\
  delivered 0 (snd (post_api_timers_stop hexObjectId hexString alice_stops online))
  = [Msg.mk "all_timers"
       [View.mk 1%N 7%N "write spec" 0%Z (Some 5000%Z) false None (Some 5000%Z)]].
Proof. vm_compute. repeat split. Qed.

(** Bob cannot stop Alice's timer: 404, nothing changes, nothing is sent. *)
Example bob_stops_alices_timer :
  post_api_timers_stop hexObjectId hexString
    (mkRequest [("sessionId", "s-bob")] "" "000000000000000000000001") online
  = (Ok (status_send 404 "Unknown timer ID: 000000000000000000000001"), online).
Proof. vm_compute. reflexivity. Qed.

(** Without a session the timer routes answer 401. *)
Example no_session_no_timer :
  post_api_timers hexObjectId hexString (mkRequest [] "read mail" "") online
  = (Ok (sendStatus 401), online).
Proof. vm_compute. reflexivity. Qed.

(** * Further properties of the code *)

(** ** Stopping, in memory and in the store *)

Lemma stopTimer_quiet_named i userId w :
  faults w = [] ->
  stopTimer i userId w =
    (Ok (present (find (has_id_and_owner i userId) (timers (db w)))),
     set_db
       (set_timers
          (snd (update_first (has_id_and_owner i userId) (stopped_at (now w))
                  (timers (db w))))
          (db w)) w).
Proof. intros H. apply (stopTimer_quiet i userId w H). Qed.

Lemma TimerViewModel_stop_view_at d d' a t w :
  TimerViewModel_stop (view_at d t) (Some a) w = (Ok (view_at d' (stopped_at a t)), w).
Proof.
  unfold TimerViewModel_stop, view_at, stopped_at. rewrite bind_ret_l.
  destruct (Timer.end_ t); reflexivity.
Qed.

(** X1.  The in-memory [stop] and the stored stop agree.  Stopping the view
    of a timer record at an instant gives the view of the record with its
    [end] set to that instant, whatever the clock showed when the view was
    built and whether or not the timer was running; a later [stop] replaces
    an earlier one.  In particular, after [stopTimer] has updated a timer in
    the store, projecting the stored record gives what [stop()], called with
    no argument on the view held before, gives. *)
Theorem TimerViewModel_stop_agrees_with_stopTimer
  (i userId : oid) (t : Timer.t) (w : World) :
  faults w = [] ->
  find (has_id_and_owner i userId) (timers (db w)) = Some t ->
  find (has_id_and_owner i userId) (timers (db (snd (stopTimer i userId w))))
    = Some (stopped_at (now w) t) /\
  fst (TimerViewModel (stopped_at (now w) t) (snd (stopTimer i userId w)))
    = fst (TimerViewModel_stop (view_at (now w) t) None w) /\
  (forall d d' a w', TimerViewModel_stop (view_at d t) (Some a) w'
                     = (Ok (view_at d' (stopped_at a t)), w')) /\
  (forall d a b w',
     (v <- TimerViewModel_stop (view_at d t) (Some a) ;; TimerViewModel_stop v (Some b)) w'
     = TimerViewModel_stop (view_at d t) (Some b) w') /\
  (forall w', TimerViewModel_stop (view_at (now w') t) None w'
              = TimerViewModel_stop (view_at (now w') t) (Some (now w')) w').
Proof.
  intros Hf Hfind.
  rewrite TimerViewModel_view_at.
  rewrite (stopTimer_quiet_named i userId w Hf). simpl.
  split.
  - rewrite update_first_find by reflexivity. now rewrite Hfind.
  - split; [|split; [|split]].
    + unfold TimerViewModel_stop, Date_now, bind, ret, view_at, stopped_at. simpl.
      destruct (Timer.end_ t); reflexivity.
    + intros. apply TimerViewModel_stop_view_at.
    + intros d a b w'.
      unfold TimerViewModel_stop, bind, ret, view_at. destruct (Timer.end_ t); reflexivity.
    + intros w'. reflexivity.
Qed.

Lemma TimerViewModel_stop_agrees_with_stopTimer_witness :
  faults online = [] /\
  fst (TimerViewModel_stop (view_at 5000%Z write_spec) None online)
  = Ok (View.mk 1%N 7%N "write spec" 0%Z (Some 5000%Z) false None (Some 5000%Z)).
Proof.
  split; [reflexivity|].
  destruct (TimerViewModel_stop_agrees_with_stopTimer 1%N 7%N write_spec online
              eq_refl eq_refl) as (_ & H & _).
  etransitivity; [symmetry; exact H|reflexivity].
Defined.

(** ** What the store operations change *)

Lemma update_first_map {B} (f : Timer.t -> B) q u l :
  (forall t, f (u t) = f t) -> map f (snd (update_first q u l)) = map f l.
Proof.
  intros Hf. induction l as [|t l IH]; simpl; [reflexivity|].
  destruct (q t); simpl; [now rewrite Hf|].
  destruct (update_first q u l). simpl in *. now rewrite IH.
Qed.

Lemma update_first_filter p q u l :
  (forall t, q t = true -> p t = false /\ p (u t) = false) ->
  filter p (snd (update_first q u l)) = filter p l.
Proof.
  intros Hp. induction l as [|t l IH]; simpl; [reflexivity|].
  destruct (q t) eqn:E; simpl.
  - destruct (Hp t E) as [-> ->]. reflexivity.
  - destruct (update_first q u l). simpl in *. now rewrite IH.
Qed.

Lemma stopTimer_timers i userId w :
  timers (db (snd (stopTimer i userId w))) = timers (db w) \/
  timers (db (snd (stopTimer i userId w)))
  = snd (update_first (has_id_and_owner i userId) (stopped_at (now w)) (timers (db w))).
Proof.
  unfold stopTimer, Date_now, timers_findOneAndUpdate, bind, external.
  destruct (faults w) as [|[] fs]; simpl.
  - right.
    change (fun t => (Timer._id t =? i)%N && (Timer.userId t =? userId)%N)
      with (has_id_and_owner i userId).
    change (fun t => Timer.mk (Timer._id t) (Timer.userId t) (Timer.description t)
                       (Timer.start t) (Some (now w)))
      with (stopped_at (now w)).
    destruct (update_first (has_id_and_owner i userId) (stopped_at (now w))
                (timers (db w))) as [[r|] ts]; reflexivity.
  - now left.
  - right.
    change (fun t => (Timer._id t =? i)%N && (Timer.userId t =? userId)%N)
      with (has_id_and_owner i userId).
    change (fun t => Timer.mk (Timer._id t) (Timer.userId t) (Timer.description t)
                       (Timer.start t) (Some (now w)))
      with (stopped_at (now w)).
    destruct (update_first (has_id_and_owner i userId) (stopped_at (now w))
                (timers (db w))) as [[r|] ts]; reflexivity.
Qed.

(** X2.  [stopTimer] never adds or removes a timer and never changes an id,
    an owner, a description or a start: whatever the outcome, the timers
    are the same in the same order up to their [end].  The timers of every
    other user are left exactly as they were, so no user can alter the state
    of a timer owned by somebody else. *)
Theorem stopTimer_changes_an_end_of_the_owner_only (i userId : oid) (w : World) :
  map Timer._id (timers (db (snd (stopTimer i userId w)))) = map Timer._id (timers (db w)) /\
  map Timer.userId (timers (db (snd (stopTimer i userId w))))
    = map Timer.userId (timers (db w)) /\
  map Timer.description (timers (db (snd (stopTimer i userId w))))
    = map Timer.description (timers (db w)) /\
  map Timer.start (timers (db (snd (stopTimer i userId w)))) = map Timer.start (timers (db w)) /\
  filter (fun t => negb (owned_by userId t)) (timers (db (snd (stopTimer i userId w))))
    = filter (fun t => negb (owned_by userId t)) (timers (db w)) /\
  users (db (snd (stopTimer i userId w))) = users (db w) /\
  sessions (db (snd (stopTimer i userId w))) = sessions (db w).
Proof.
  assert (Hus : users (db (snd (stopTimer i userId w))) = users (db w) /\
                sessions (db (snd (stopTimer i userId w))) = sessions (db w)).
  { unfold stopTimer, Date_now, timers_findOneAndUpdate, bind, external.
    destruct (faults w) as [|[] fs]; simpl; try (split; reflexivity);
      destruct (update_first _ _ (timers (db w))) as [[r|] ts]; split; reflexivity. }
  destruct (stopTimer_timers i userId w) as [->| ->].
  - repeat split; apply Hus.
  - rewrite !update_first_map by reflexivity.
    rewrite update_first_filter.
    + repeat split; apply Hus.
    + intros t Ht. unfold has_id_and_owner in Ht. apply andb_true_iff in Ht.
      destruct Ht as [_ Ht]. unfold owned_by, stopped_at. simpl. now rewrite Ht.
Qed.

Lemma filter_filter_andb {A} (p q : A -> bool) l :
  filter (fun a => p a && q a) l = filter q (filter p l).
Proof.
  induction l as [|a l IH]; simpl; [reflexivity|].
  destruct (p a); simpl; [|exact IH].
  destruct (q a); now rewrite IH.
Qed.

Lemma filter_map_comm {A B} (f : A -> B) (p : B -> bool) l :
  filter p (map f l) = map f (filter (fun a => p (f a)) l).
Proof.
  induction l as [|a l IH]; simpl; [reflexivity|].
  destruct (p (f a)); simpl; now rewrite IH.
Qed.

Lemma isActive_view_at d t : View.isActive (view_at d t) = end_is_null t.
Proof. unfold view_at, end_is_null. now destruct (Timer.end_ t). Qed.

(** X3.  At one instant and with no failure ahead, the active snapshot of a
    user is the full snapshot of that user restricted to the views whose
    [isActive] is set: nothing else is in it, nothing running is missing,
    and the order is the same. *)
Theorem fetchActiveTimers_is_the_active_part_of_fetchAllTimers (o : oid) (w : World) :
  faults w = [] ->
  exists all,
    fetchAllTimers o w = (Ok all, w) /\
    fetchActiveTimers o w = (Ok (filter View.isActive all), w).
Proof.
  intros Hf. eexists. split; [now apply fetchAllTimers_quiet|].
  rewrite (fetchActiveTimers_quiet o w Hf). f_equal. f_equal.
  rewrite filter_map_comm, filter_filter_andb. f_equal.
  apply filter_ext. intros t. symmetry. apply isActive_view_at.
Qed.

Lemma fetchActiveTimers_is_the_active_part_of_fetchAllTimers_witness :
  faults online = [] /\
  exists all,
    fetchAllTimers 7%N online = (Ok all, online) /\
    fetchActiveTimers 7%N online = (Ok (filter View.isActive all), online).
Proof.
  split; [reflexivity|].
  apply (fetchActiveTimers_is_the_active_part_of_fetchAllTimers 7%N online eq_refl).
Defined.

(** ** Creating a timer *)

Lemma createTimer_quiet u d w :
  faults w = [] ->
  createTimer u d w =
    (Ok (next_oid (db w)),
     set_db (mkDb (users (db w)) (sessions (db w))
               (timers (db w) ++ [Timer.mk (next_oid (db w)) u d (now w) None])
               (N.succ (next_oid (db w)))) w).
Proof.
  intros Hf. unfold createTimer, Date_now, timers_insertOne.
  unfold bind at 1.
  now rewrite (bind_Ok _ _ _ _ _ (external_quiet MongoError w Hf)).
Qed.

(** X4.  With no failure ahead, [createTimer] stores one more timer: it is
    owned by the given user, runs, and starts at the instant the clock shows
    to [createTimer].  Read back when the clock shows any instant [d'], the
    timers of that user are the ones there were, followed by the new one,
    active, with the progress from its start to [d']; what any other user
    reads back has not changed. *)
Theorem createTimer_then_fetchAllTimers (u : oid) (d : string) (d' : Z) (w : World) :
  faults w = [] ->
  exists w1,
    createTimer u d w = (Ok (next_oid (db w)), w1) /\
    timers (db w1)
      = (timers (db w) ++ [Timer.mk (next_oid (db w)) u d (now w) None])%list /\
    fetchAllTimers u (set_now d' w1)
      = (Ok (map (view_at d') (filter (owned_by u) (timers (db w)))
             ++ [View.mk (next_oid (db w)) u d (now w) None true
                   (Some (d' - now w)%Z) None])%list,
         set_now d' w1) /\
    (forall o, o <> u ->
       fst (fetchAllTimers o (set_now d' w1)) = fst (fetchAllTimers o (set_now d' w))).
Proof.
  intros Hf. eexists.
  split; [now apply createTimer_quiet|].
  split; [reflexivity|].
  split.
  - rewrite fetchAllTimers_quiet by exact Hf. simpl.
    rewrite filter_app, map_app. simpl. unfold owned_by at 2. simpl.
    rewrite N.eqb_refl. reflexivity.
  - intros o Ho. rewrite !fetchAllTimers_quiet by exact Hf. simpl.
    rewrite filter_app. simpl. unfold owned_by at 2. simpl.
    destruct (N.eqb u o) eqn:E; [apply N.eqb_eq in E; congruence|].
    now rewrite app_nil_r.
Qed.

Lemma createTimer_then_fetchAllTimers_witness :
  faults online = [] /\
  exists w1,
    createTimer 8%N "tea" online = (Ok (next_oid (db online)), w1) /\
    timers (db w1)
      = (timers (db online)
         ++ [Timer.mk (next_oid (db online)) 8%N "tea" (now online) None])%list /\
    fetchAllTimers 8%N (set_now 5040%Z w1)
      = (Ok (map (view_at 5040%Z) (filter (owned_by 8%N) (timers (db online)))
             ++ [View.mk (next_oid (db online)) 8%N "tea" (now online) None true
                   (Some (5040 - now online)%Z) None])%list,
         set_now 5040%Z w1) /\
    (forall o, o <> 8%N ->
       fst (fetchAllTimers o (set_now 5040%Z w1))
       = fst (fetchAllTimers o (set_now 5040%Z online))).
Proof.
  split; [reflexivity|].
  apply (createTimer_then_fetchAllTimers 8%N "tea" 5040%Z online eq_refl).
Defined.

(** ** Who is authenticated *)

Lemma external_db e w r w' : external e w = (r, w') -> db w' = db w.
Proof.
  unfold external. destruct (faults w) as [|b fs]; intros [= <- <-]; reflexivity.
Qed.

Lemma sessions_findOne_Ok q w r w' :
  sessions_findOne q w = (Ok r, w') -> r = find q (sessions (db w)) /\ db w' = db w.
Proof.
  unfold sessions_findOne, bind.
  destruct (external MongoError w) as [[[]|e] w1] eqn:E; [|discriminate].
  intros [= <- <-]. rewrite (external_db _ _ _ _ E). now split.
Qed.

Lemma users_findOne_Ok q w r w' :
  users_findOne q w = (Ok r, w') -> r = find q (users (db w)) /\ db w' = db w.
Proof.
  unfold users_findOne, bind.
  destruct (external MongoError w) as [[[]|e] w1] eqn:E; [|discriminate].
  intros [= <- <-]. rewrite (external_db _ _ _ _ E). now split.
Qed.

Lemma auth_db req w r w' : auth req w = (r, w') -> db w' = db w.
Proof.
  unfold auth. destruct (cookie "sessionId" (cookies req)) as [sid|];
    [|intros [= _ <-]; reflexivity].
  destruct (String.eqb sid ""); [intros [= _ <-]; reflexivity|].
  unfold findUserBySessionId, sessions_findOne, users_findOne, bind.
  destruct (external MongoError w) as [[[]|e] w1] eqn:E1;
    pose proof (external_db _ _ _ _ E1) as H1; [|intros [= _ <-]; exact H1].
  destruct (find _ (sessions (db w1))) as [s0|]; [|intros [= _ <-]; exact H1].
  destruct (external MongoError w1) as [[[]|e] w2] eqn:E2;
    pose proof (external_db _ _ _ _ E2) as H2; intros [= _ <-]; congruence.
Qed.

(** X5.  For a request whose [sessionId] cookie, if any, is a plain string
    (not of the form [j:<JSON>], which [cookieParser()] would hand over as
    an object), [auth()] leaves a user in [req.user] only when the cookie is
    not empty, the store has a session with that id, and the user is a
    stored user whose id is the one that session names.  It never writes to
    the store. *)
Theorem auth_user_has_a_session (req : Request) (u : User.t) (w w' : World) :
  (forall v, cookie "sessionId" (cookies req) = Some v -> json_cookie v = false) ->
  auth req w = (Ok (Some u), w') ->
  exists sid s,
    cookie "sessionId" (cookies req) = Some sid /\ sid <> "" /\
    In s (sessions (db w)) /\ Session.sessionId s = sid /\
    In u (users (db w)) /\ User._id u = Session.userId s /\
    db w' = db w.
Proof.
  intros _.
  unfold auth. destruct (cookie "sessionId" (cookies req)) as [sid|]; [|discriminate].
  destruct (String.eqb sid "") eqn:E; [discriminate|].
  unfold findUserBySessionId, bind.
  destruct (sessions_findOne _ w) as [[[s|]|e] w1] eqn:Es; try discriminate.
  intros Hu. apply sessions_findOne_Ok in Es. destruct Es as [Hs Hd1].
  apply users_findOne_Ok in Hu. destruct Hu as [Hu Hd2].
  symmetry in Hs, Hu. apply find_some in Hs. apply find_some in Hu.
  destruct Hs as [Hs1 Hs2]. destruct Hu as [Hu1 Hu2].
  apply String.eqb_eq in Hs2. apply N.eqb_eq in Hu2.
  exists sid, s. split; [reflexivity|].
  split; [intros ->; discriminate|].
  rewrite Hd1 in Hu1. repeat split; try assumption. congruence.
Qed.

Lemma auth_user_has_a_session_witness :
  auth alice_stops online = (Ok (Some alice), online) /\
  exists sid s,
    cookie "sessionId" (cookies alice_stops) = Some sid /\ sid <> "" /\
    In s (sessions (db online)) /\ Session.sessionId s = sid /\
    In alice (users (db online)) /\ User._id alice = Session.userId s /\
    db online = db online.
Proof.
  split; [reflexivity|].
  apply (auth_user_has_a_session alice_stops alice online online); [|reflexivity].
  intros v [= <-]. reflexivity.
Defined.

Lemma Forall2_shows_map d l : Forall2 shows (map (view_at d) l) l.
Proof.
  induction l as [|t l IH]; simpl; constructor; [now exists d|exact IH].
Qed.

Section Routes.
Variable ObjectId : string -> option oid.
Variable toString : oid -> string.

(** X6.  A request without a [sessionId] cookie, or with an empty one, is
    answered 401 by both timer routes without any access to the store, to
    the registry or to a socket: the world is exactly as before, even when
    a failure was due. *)
Theorem timer_routes_refuse_without_session_cookie (req : Request) (w : World) :
  truthy (cookie "sessionId" (cookies req)) = false ->
  post_api_timers ObjectId toString req w = (Ok (sendStatus 401), w) /\
  post_api_timers_stop ObjectId toString req w = (Ok (sendStatus 401), w) /\
  logout req w = (Ok (redirect "/" [] []), w).
Proof.
  intros H.
  assert (Ha : auth req w = (Ok None, w)).
  { unfold auth, truthy in *. destruct (cookie "sessionId" (cookies req)) as [s|];
      [|reflexivity].
    destruct (String.eqb s ""); [reflexivity|discriminate]. }
  unfold post_api_timers, post_api_timers_stop, logout.
  rewrite !(bind_Ok _ _ _ _ _ Ha). now repeat split.
Qed.

(** X7.  When the id in the path of the stop route is not an object id, the
    route does not answer 404: for an authenticated user the handler throws
    at the conversion, before it touches a timer or sends anything. *)
Theorem stop_route_throws_on_malformed_id (req : Request) (u : User.t) (w w1 : World) :
  auth req w = (Ok (Some u), w1) ->
  ObjectId (params_id req) = None ->
  post_api_timers_stop ObjectId toString req w = (Throw BSONTypeError, w1) /\
  db w1 = db w /\ wire w1 = wire w /\ clients w1 = clients w.
Proof.
  intros Ha Ho. unfold post_api_timers_stop. rewrite (bind_Ok _ _ _ _ _ Ha).
  unfold ObjectId_of. rewrite Ho. rewrite bind_throw_l.
  split; [reflexivity|].
  pose proof (auth_db req w _ w1 Ha) as Hd.
  pose proof (snd_quiet _ _ _ _ (auth_keeps_quiet req) Ha) as (_ & Hc & _ & _ & Hw).
  now repeat split.
Qed.

(** X8.  With no failure ahead, the create route, called by an authenticated
    user whose socket is registered, stores the timer, sends the socket one
    ["all_timers"] message that lists a view of each of the user's timers in
    the order of the store, the last of them a view of the new timer, which
    is active, and answers 201 with the id of the new timer.  Nothing is said
    of the progress the views show: it depends on when each view reads the
    clock. *)
Theorem create_route_stores_pushes_and_answers_201
  (req : Request) (u : User.t) (c : ws) (w : World) :
  faults w = [] ->
  auth req w = (Ok (Some u), w) ->
  ObjectId (toString (User._id u)) = Some (User._id u) ->
  Map_get (toString (User._id u)) (clients w) = Some c ->
  exists w' vs,
    post_api_timers ObjectId toString req w
      = (Ok (status_send_id 201 (next_oid (db w))), w') /\
    timers (db w')
      = (timers (db w)
         ++ [Timer.mk (next_oid (db w)) (User._id u) (body_description req) (now w) None])%list /\
    wire w' = (wire w ++ [(c, Msg.mk "all_timers" vs)])%list /\
    Forall2 shows vs (filter (owned_by (User._id u)) (timers (db w'))) /\
    exists vs0 v,
      vs = (vs0 ++ [v])%list /\
      shows v (Timer.mk (next_oid (db w)) (User._id u) (body_description req) (now w) None) /\
      View.id v = next_oid (db w) /\
      View.isActive v = true /\
      View.end_ v = None /\
      View.duration v = None.
Proof.
  intros Hf Ha Ho Hc. unfold post_api_timers.
  rewrite (bind_Ok _ _ _ _ _ Ha).
  rewrite (bind_Ok _ _ _ _ _ (createTimer_quiet (User._id u) (body_description req) w Hf)).
  match goal with
  | |- context [bind (sendAllTimersMsg _ _) _ ?w1] =>
      rewrite (bind_Ok _ _ _ _ _
                 (sendAllTimersMsg_quiet ObjectId (toString (User._id u)) (User._id u) c w1
                    Hf Ho Hc))
  end.
  eexists. eexists. split; [reflexivity|]. simpl.
  split; [reflexivity|]. split; [reflexivity|]. split.
  - apply Forall2_shows_map.
  - rewrite filter_app, map_app. simpl. unfold owned_by at 2. simpl.
    rewrite N.eqb_refl. simpl.
    eexists. eexists. split; [reflexivity|].
    split; [now exists (now w)|]. now repeat split.
Qed.

(** X9.  With no failure ahead, the stop route, called by an authenticated
    user whose socket is registered for a timer that user owns, sets the
    timer's [end] to the current instant, sends the socket one
    ["all_timers"] message in which that timer is no longer active and has
    the duration from its start to now, and answers 204. *)
Theorem stop_route_stops_pushes_and_answers_204
  (req : Request) (u : User.t) (i : oid) (t : Timer.t) (c : ws) (w : World) :
  faults w = [] ->
  auth req w = (Ok (Some u), w) ->
  ObjectId (params_id req) = Some i ->
  ObjectId (toString (User._id u)) = Some (User._id u) ->
  Map_get (toString (User._id u)) (clients w) = Some c ->
  find (has_id_and_owner i (User._id u)) (timers (db w)) = Some t ->
  exists w' vs,
    post_api_timers_stop ObjectId toString req w = (Ok (sendStatus 204), w') /\
    find (has_id_and_owner i (User._id u)) (timers (db w')) = Some (stopped_at (now w) t) /\
    wire w' = (wire w ++ [(c, Msg.mk "all_timers" vs)])%list /\
    vs = map (view_at (now w)) (filter (owned_by (User._id u)) (timers (db w'))) /\
    In (View.mk (Timer._id t) (Timer.userId t) (Timer.description t) (Timer.start t)
          (Some (now w)) false None (Some (now w - Timer.start t)%Z)) vs.
Proof.
  intros Hf Ha Hi Ho Hc Hfind. unfold post_api_timers_stop.
  rewrite (bind_Ok _ _ _ _ _ Ha). unfold ObjectId_of. rewrite Hi, bind_ret_l.
  rewrite (bind_Ok _ _ _ _ _ (stopTimer_quiet_named i (User._id u) w Hf)).
  rewrite Hfind. cbn [present absent negb].
  match goal with
  | |- context [bind (sendAllTimersMsg _ _) _ ?w1] =>
      rewrite (bind_Ok _ _ _ _ _
                 (sendAllTimersMsg_quiet ObjectId (toString (User._id u)) (User._id u) c w1
                    Hf Ho Hc))
  end.
  assert (Hfind' : find (has_id_and_owner i (User._id u))
                     (snd (update_first (has_id_and_owner i (User._id u))
                             (stopped_at (now w)) (timers (db w))))
                   = Some (stopped_at (now w) t)).
  { rewrite update_first_find by reflexivity. now rewrite Hfind. }
  eexists. eexists. split; [reflexivity|]. simpl.
  split; [exact Hfind'|]. split; [reflexivity|]. split; [reflexivity|].
  apply in_map_iff. exists (stopped_at (now w) t). split; [reflexivity|].
  apply find_some in Hfind'. destruct Hfind' as [Hin Hq].
  apply filter_In. split; [exact Hin|].
  unfold has_id_and_owner in Hq. apply andb_true_iff in Hq. apply Hq.
Qed.

End Routes.

Lemma timer_routes_refuse_without_session_cookie_witness :
  truthy (cookie "sessionId" (cookies (mkRequest [("userId", alice_key)] "tea" ""))) = false /\
  post_api_timers hexObjectId hexString (mkRequest [("userId", alice_key)] "tea" "")
    (set_faults [true] online)
  = (Ok (sendStatus 401), set_faults [true] online).
Proof.
  split; [reflexivity|].
  apply (timer_routes_refuse_without_session_cookie hexObjectId hexString
           (mkRequest [("userId", alice_key)] "tea" "") (set_faults [true] online)).
  reflexivity.
Defined.

Lemma stop_route_throws_on_malformed_id_witness :
  hexObjectId "first" = None /\
  post_api_timers_stop hexObjectId hexString
    (mkRequest [("sessionId", "s-alice")] "" "first") online
  = (Throw BSONTypeError, online).
Proof.
  split; [reflexivity|].
  apply (stop_route_throws_on_malformed_id hexObjectId hexString
           (mkRequest [("sessionId", "s-alice")] "" "first") alice online online);
    reflexivity.
Defined.

Lemma create_route_stores_pushes_and_answers_201_witness :
  faults online = [] /\
  fst (post_api_timers hexObjectId hexString alice_starts online)
  = Ok (status_send_id 201 2%N).
Proof.
  split; [reflexivity|].
  destruct (create_route_stores_pushes_and_answers_201 hexObjectId hexString
              alice_starts alice 0 online eq_refl eq_refl eq_refl eq_refl)
    as (w' & vs & H & _).
  exact (f_equal fst H).
Defined.

Lemma stop_route_stops_pushes_and_answers_204_witness :
  faults online = [] /\
  exists w' vs,
    post_api_timers_stop hexObjectId hexString alice_stops online
      = (Ok (sendStatus 204), w') /\
    find (has_id_and_owner 1%N (User._id alice)) (timers (db w'))
      = Some (stopped_at (now online) write_spec) /\
    wire w' = (wire online ++ [(0, Msg.mk "all_timers" vs)])%list /\
    vs = map (view_at (now online)) (filter (owned_by (User._id alice)) (timers (db w'))) /\
    In (View.mk (Timer._id write_spec) (Timer.userId write_spec)
          (Timer.description write_spec) (Timer.start write_spec)
          (Some (now online)) false None
          (Some (now online - Timer.start write_spec)%Z)) vs.
Proof.
  split; [reflexivity|].
  apply (stop_route_stops_pushes_and_answers_204 hexObjectId hexString
           alice_stops alice 1%N write_spec 0 online); reflexivity.
Defined.

(** ** What reads leave alone *)

Lemma same_store_refl w : same_store w w.
Proof. now split. Qed.

Lemma same_store_trans a b c : same_store a b -> same_store b c -> same_store a c.
Proof. unfold same_store. intuition congruence. Qed.

Ltac store_step :=
  first
    [ apply (keeps_ret same_store same_store_refl)
    | apply (keeps_throw same_store same_store_refl)
    | apply (keeps_bind same_store same_store_trans); [|intros ?]
    | apply (keeps_mapM same_store same_store_refl same_store_trans); intros ? ].

Lemma external_keeps_store e : keeps same_store (external e).
Proof.
  intros w. unfold external. destruct (faults w) as [|b fs]; simpl; now split.
Qed.

Lemma TimerViewModel_keeps_store t : keeps same_store (TimerViewModel t).
Proof. intros w. rewrite TimerViewModel_view_at. apply same_store_refl. Qed.

Lemma timers_find_keeps_store q : keeps same_store (timers_find q).
Proof.
  unfold timers_find. store_step; [apply external_keeps_store|].
  intros w. apply same_store_refl.
Qed.

Lemma fetchAllTimers_keeps_store o : keeps same_store (fetchAllTimers o).
Proof.
  unfold fetchAllTimers. store_step; [apply timers_find_keeps_store|].
  store_step. apply TimerViewModel_keeps_store.
Qed.

Lemma fetchActiveTimers_keeps_store o : keeps same_store (fetchActiveTimers o).
Proof.
  unfold fetchActiveTimers. store_step; [apply timers_find_keeps_store|].
  store_step. apply TimerViewModel_keeps_store.
Qed.

Lemma send_keeps_store x msg : keeps same_store (send x msg).
Proof.
  destruct x as [c|]; simpl; [|store_step].
  store_step; [apply external_keeps_store|].
  intros w. now split.
Qed.

Lemma auth_keeps_store req : keeps same_store (auth req).
Proof.
  unfold auth. destruct (cookie "sessionId" (cookies req)) as [s|]; [|store_step].
  destruct (String.eqb s ""); [store_step|].
  unfold findUserBySessionId. store_step.
  - unfold sessions_findOne. store_step; [apply external_keeps_store|].
    intros w. apply same_store_refl.
  - destruct a; [|store_step].
    unfold users_findOne. store_step; [apply external_keeps_store|].
    intros w. apply same_store_refl.
Qed.

Section StoreFrames.
Variable ObjectId : string -> option oid.
Variable toString : oid -> string.

Lemma sendAllTimersMsg_keeps_store u : keeps same_store (sendAllTimersMsg ObjectId u).
Proof.
  unfold sendAllTimersMsg. store_step.
  - unfold ObjectId_of. destruct (ObjectId u); store_step.
  - store_step; [apply fetchAllTimers_keeps_store|].
    store_step; [intros w; apply same_store_refl|apply send_keeps_store].
Qed.

Lemma sendActiveTimersMsg_keeps_store u : keeps same_store (sendActiveTimersMsg ObjectId u).
Proof.
  unfold sendActiveTimersMsg. store_step.
  - unfold ObjectId_of. destruct (ObjectId u); store_step.
  - store_step; [apply fetchActiveTimers_keeps_store|].
    store_step; [intros w; apply same_store_refl|apply send_keeps_store].
Qed.

Lemma tick_keeps_store : keeps same_store (tick ObjectId).
Proof.
  intros w. unfold tick.
  apply (keeps_forOf same_store same_store_refl same_store_trans).
  apply sendActiveTimersMsg_keeps_store.
Qed.

Lemma upgrade_keeps_store req : keeps same_store (upgrade ObjectId req).
Proof.
  intros w.
  destruct (upgrade_cases ObjectId req w)
    as [[_ ->]|[(jar & _ & _ & ->)|(jar & v & _ & _ & _ & ->)]];
    simpl; try apply same_store_refl.
  unfold connection, bind. simpl.
  match goal with
  | |- same_store _ (snd (sendAllTimersMsg _ _ ?w1)) =>
      apply (same_store_trans w w1); [now split|apply sendAllTimersMsg_keeps_store]
  end.
Qed.

Lemma close_keeps_store c : keeps same_store (close c).
Proof.
  intros w. destruct (close_cases c w) as [->|(v & _ & ->)]; simpl; now split.
Qed.

End StoreFrames.

(** X10.  Pushing, ticking, accepting or refusing an upgrade and closing a
    socket never write to the store and never move the clock, whether they
    return or throw: users, sessions, timers and the id counter are as
    before.  Only the two timer routes change timers. *)
Theorem pushes_and_sockets_leave_the_store
  (ObjectId : string -> option oid) (w : World) :
  (forall u, same_store w (snd (sendAllTimersMsg ObjectId u w))) /\
  (forall u, same_store w (snd (sendActiveTimersMsg ObjectId u w))) /\
  same_store w (snd (tick ObjectId w)) /\
  (forall req, same_store w (snd (upgrade ObjectId req w))) /\
  (forall c, same_store w (snd (close c w))) /\
  (forall req, same_store w (snd (auth req w))).
Proof.
  split; [intros u; apply sendAllTimersMsg_keeps_store|].
  split; [intros u; apply sendActiveTimersMsg_keeps_store|].
  split; [apply tick_keeps_store|].
  split; [intros req; apply upgrade_keeps_store|].
  split; [intros c; apply close_keeps_store|].
  intros req. apply auth_keeps_store.
Qed.

(** X11.  The timer routes, the ticker and the passing of time never add,
    replace or remove a registry entry, never open or close a socket, and
    send only to sockets that are registered when the handler starts. *)
Theorem routes_and_ticks_leave_the_registry
  (ObjectId : string -> option oid) (toString : oid -> string)
  (e : Event) (w : World) :
  match e with
  | EUpgrade _ | EClose _ => True
  | _ =>
      clients (step ObjectId toString e w) = clients w /\
      listeners (step ObjectId toString e w) = listeners w /\
      next_ws (step ObjectId toString e w) = next_ws w /\
      exists l,
        wire (step ObjectId toString e w) = (wire w ++ l)%list /\
        Forall (fun m => In (fst m) (Map_values (clients w))) l
  end.
Proof.
  destruct e as [req|c| |req|req|ms|fs]; try exact I; simpl.
  - apply tick_keeps_pushes.
  - apply post_api_timers_keeps_pushes.
  - apply post_api_timers_stop_keeps_pushes.
  - apply (pushes_refl (set_now (now w + Z.of_N ms) w)).
  - apply (pushes_refl (set_faults fs w)).
Qed.

(** ** Registered sockets are open sockets *)

Section JsMapEntries.
Context {V : Type}.

Lemma Map_set_entry_in k (v : V) m k' v' :
  In (k', v') (Map_set k v m) -> (k', v') = (k, v) \/ In (k', v') m.
Proof.
  induction m as [|[k0 v0] m IH]; simpl.
  - intros [H|[]]. left. now symmetry.
  - destruct (String.eqb k k0); simpl.
    + intros [H|H]; [left; now symmetry|right; now right].
    + intros [H|H]; [right; now left|].
      destruct (IH H) as [H'|H']; [now left|right; now right].
Qed.

Lemma Map_delete_entry_in k m k' (v' : V) :
  NoDup (Map_keys m) -> In (k', v') (Map_delete k m) -> In (k', v') m /\ k' <> k.
Proof.
  unfold Map_keys. induction m as [|[k0 v0] m IH]; simpl; intros Hnd Hin; [tauto|].
  inversion Hnd as [|? ? Hn Hnd']; subst.
  destruct (String.eqb k k0) eqn:E; simpl in Hin.
  - apply String.eqb_eq in E. subst k0. split; [now right|].
    intros ->. apply Hn. apply in_map_iff. now exists (k, v').
  - destruct Hin as [[= <- <-]|Hin].
    + split; [now left|]. intros ->. now rewrite String.eqb_refl in E.
    + destruct (IH Hnd' Hin) as [H1 H2]. split; [now right|assumption].
Qed.

Lemma Map_get_In k m (v : V) : Map_get k m = Some v -> In (k, v) m.
Proof.
  induction m as [|[k0 v0] m IH]; simpl; [discriminate|].
  destruct (String.eqb k k0) eqn:E.
  - apply String.eqb_eq in E. subst. intros [= ->]. now left.
  - intros H. right. now apply IH.
Qed.

End JsMapEntries.

Lemma NoDup_fst_filter {A B} (p : A * B -> bool) (l : list (A * B)) :
  NoDup (map fst l) -> NoDup (map fst (filter p l)).
Proof.
  induction l as [|a l IH]; simpl; intros H; [constructor|].
  inversion H as [|? ? Hn Hnd]; subst.
  destruct (p a); simpl; [|now apply IH].
  constructor; [|now apply IH].
  intros Hin. apply Hn. apply in_map_iff in Hin. destruct Hin as (x & Hx & Hin).
  apply filter_In in Hin. apply in_map_iff. exists x. tauto.
Qed.

Lemma NoDup_fst_unique {A B} (l : list (A * B)) a b b' :
  NoDup (map fst l) -> In (a, b) l -> In (a, b') l -> b = b'.
Proof.
  induction l as [|[a0 b0] l IH]; simpl; intros Hnd H1 H2; [tauto|].
  inversion Hnd as [|? ? Hn Hnd']; subst.
  destruct H1 as [[= -> ->]|H1]; destruct H2 as [[= <-]|H2].
  - reflexivity.
  - exfalso. apply Hn. apply in_map_iff. now exists (a, b').
  - subst. exfalso. apply Hn. apply in_map_iff. now exists (a0, b).
  - now apply IH.
Qed.

Lemma pushes_Open_registry w w' : pushes w w' -> Open_registry w -> Open_registry w'.
Proof.
  intros (Hc & Hl & Hn & _) H. unfold Open_registry. now rewrite Hc, Hl, Hn.
Qed.

Lemma Open_registry_init : Open_registry init.
Proof.
  unfold Open_registry, init. simpl. repeat split; try constructor. intros k c [].
Qed.

Section OpenSockets.
Variable ObjectId : string -> option oid.
Variable toString : oid -> string.

Lemma step_Open_registry e w :
  WF w -> Open_registry w -> Open_registry (step ObjectId toString e w).
Proof.
  intros HW HO. destruct e as [req|c| |req|req|ms|fs]; simpl.
  - destruct (upgrade_cases ObjectId req w)
      as [[_ ->]|[(jar & _ & _ & ->)|(jar & v & _ & _ & _ & ->)]];
      simpl; try assumption.
    eapply pushes_Open_registry; [apply connection_pushes|].
    destruct HO as (H1 & H2 & H3). rewrite Forall_forall in H2.
    split; [|split]; simpl.
    + constructor; [|assumption].
      intros Hin. apply in_map_iff in Hin. destruct Hin as (x & Hx & Hin).
      specialize (H2 x Hin). unfold ws in *. simpl in H2, Hx. lia.
    + constructor; [simpl; lia|].
      apply Forall_forall. intros x Hx. specialize (H2 x Hx). simpl. lia.
    + intros k c Hin. apply Map_set_entry_in in Hin.
      destruct Hin as [[= -> ->]|Hin]; [now left|right; now apply H3].
  - destruct (close_cases c w) as [->|(v & Hv & ->)]; simpl; [assumption|].
    destruct HO as (H1 & H2 & H3). split; [|split]; simpl.
    + now apply NoDup_fst_filter.
    + rewrite Forall_forall in *. intros x Hx. apply filter_In in Hx. now apply H2.
    + intros k c' Hin.
      apply Map_delete_entry_in in Hin; [|apply HW]. destruct Hin as [Hin Hk].
      apply filter_In. split; [now apply H3|]. simpl.
      apply negb_true_iff, Nat.eqb_neq. intros ->.
      apply Hk. apply (NoDup_fst_unique (listeners w) c k v H1); [now apply H3|assumption].
  - eapply pushes_Open_registry; [apply tick_keeps_pushes|assumption].
  - eapply pushes_Open_registry; [apply post_api_timers_keeps_pushes|assumption].
  - eapply pushes_Open_registry; [apply post_api_timers_stop_keeps_pushes|assumption].
  - exact HO.
  - exact HO.
Qed.

Lemma run_Open_registry es w :
  WF w -> Open_registry w -> Open_registry (run ObjectId toString es w).
Proof.
  revert w. induction es as [|e es IH]; simpl; intros w HW HO; [assumption|].
  apply IH; [now apply step_WF|now apply step_Open_registry].
Qed.

End OpenSockets.

(** X12.  Whatever events the server has handled, every entry of the
    registry leads to a socket that has been created, has not been closed,
    and was opened with the [userId] the entry is filed under; so a handler
    that runs to completion never sends to a closed socket. *)
Theorem registered_sockets_are_open
  (ObjectId : string -> option oid) (toString : oid -> string)
  (w : World) (es : list Event) (k : string) (c : ws) :
  WF w -> Open_registry w ->
  Map_get k (clients (run ObjectId toString es w)) = Some c ->
  In (c, k) (listeners (run ObjectId toString es w)) /\
  c < next_ws (run ObjectId toString es w) /\
  (forall k', In (c, k') (listeners (run ObjectId toString es w)) -> k' = k).
Proof.
  intros HW HO Hg.
  destruct (run_Open_registry ObjectId toString es w HW HO) as (H1 & H2 & H3).
  pose proof (H3 k c (Map_get_In k _ c Hg)) as Hin.
  split; [exact Hin|]. split.
  - rewrite Forall_forall in H2. apply (H2 (c, k) Hin).
  - intros k' Hin'. apply (NoDup_fst_unique _ c k' k H1 Hin' Hin).
Qed.

Lemma registered_sockets_are_open_witness :
  WF init /\ Open_registry init /\
  In (1, alice_key)
    (listeners (run hexObjectId hexString
                  [EUpgrade alice_connects; EUpgrade alice_connects; ETick] init)).
Proof.
  split; [exact WF_init|]. split; [exact Open_registry_init|].
  apply (registered_sockets_are_open hexObjectId hexString init
           [EUpgrade alice_connects; EUpgrade alice_connects; ETick] alice_key 1
           WF_init Open_registry_init).
  reflexivity.
Defined.

(** ** Timers in time *)

Lemma keeps_time_refl w : keeps_time w w.
Proof. split; [lia|tauto]. Qed.

Lemma keeps_time_trans a b c : keeps_time a b -> keeps_time b c -> keeps_time a c.
Proof. intros [H1 H2] [H3 H4]. split; [lia|tauto]. Qed.

Lemma same_store_keeps_time w w' : same_store w w' -> keeps_time w w'.
Proof.
  intros [Hd Hn]. split; [lia|]. unfold Timely. now rewrite Hd, Hn.
Qed.

Lemma keeps_store_time {A} (m : M A) : keeps same_store m -> keeps keeps_time m.
Proof. intros H w. apply same_store_keeps_time, H. Qed.

Lemma timely_at_mono d d' t : (d <= d')%Z -> timely_at d t -> timely_at d' t.
Proof.
  unfold timely_at. intros Hd [H1 H2]. split; [lia|].
  destruct (Timer.end_ t); [|exact I]. lia.
Qed.

Lemma update_first_Forall (P : Timer.t -> Prop) q u l :
  (forall t, P t -> P (u t)) -> Forall P l -> Forall P (snd (update_first q u l)).
Proof.
  intros Hu. induction l as [|t l IH]; simpl; intros H; [constructor|].
  inversion H as [|? ? Ht Hl]; subst.
  destruct (q t); simpl.
  - constructor; [now apply Hu|assumption].
  - destruct (update_first q u l). simpl in *. constructor; [assumption|now apply IH].
Qed.

Lemma createTimer_keeps_time u d : keeps keeps_time (createTimer u d).
Proof.
  intros w.
  assert (Hnew : Timely w ->
            Forall (timely_at (now w))
              (timers (db w) ++ [Timer.mk (next_oid (db w)) u d (now w) None])).
  { intros H. apply Forall_app. split; [exact H|].
    constructor; [|constructor]. unfold timely_at. simpl. lia. }
  unfold createTimer, Date_now, timers_insertOne, bind, external.
  destruct (faults w) as [|[] fs]; simpl.
  - split; [simpl; lia|exact Hnew].
  - split; [simpl; lia|tauto].
  - split; [simpl; lia|exact Hnew].
Qed.

Lemma stopTimer_keeps_time i u : keeps keeps_time (stopTimer i u).
Proof.
  intros w. split.
  - destruct (stopTimer_keeps_quiet i u w) as [Hn _]. lia.
  - unfold Timely. destruct (stopTimer_keeps_quiet i u w) as [-> _].
    destruct (stopTimer_timers i u w) as [->| ->]; [tauto|].
    apply update_first_Forall. intros t [H1 H2].
    unfold timely_at, stopped_at. simpl. lia.
Qed.

Section TimeFrames.
Variable ObjectId : string -> option oid.
Variable toString : oid -> string.

Lemma post_api_timers_keeps_time req :
  keeps keeps_time (post_api_timers ObjectId toString req).
Proof.
  unfold post_api_timers.
  apply (keeps_bind keeps_time keeps_time_trans);
    [apply keeps_store_time, auth_keeps_store|intros [u|]].
  - apply (keeps_bind keeps_time keeps_time_trans);
      [apply createTimer_keeps_time|intros i].
    apply (keeps_bind keeps_time keeps_time_trans);
      [apply keeps_store_time, sendAllTimersMsg_keeps_store|intros _].
    apply (keeps_ret keeps_time keeps_time_refl).
  - apply (keeps_ret keeps_time keeps_time_refl).
Qed.

Lemma post_api_timers_stop_keeps_time req :
  keeps keeps_time (post_api_timers_stop ObjectId toString req).
Proof.
  unfold post_api_timers_stop.
  apply (keeps_bind keeps_time keeps_time_trans);
    [apply keeps_store_time, auth_keeps_store|intros [u|]].
  - apply (keeps_bind keeps_time keeps_time_trans).
    + unfold ObjectId_of. destruct (ObjectId (params_id req));
        [apply (keeps_ret keeps_time keeps_time_refl)
        |apply (keeps_throw keeps_time keeps_time_refl)].
    + intros i. apply (keeps_bind keeps_time keeps_time_trans);
        [apply stopTimer_keeps_time|intros [|]].
      * apply (keeps_bind keeps_time keeps_time_trans);
          [apply keeps_store_time, sendAllTimersMsg_keeps_store|intros _].
        apply (keeps_ret keeps_time keeps_time_refl).
      * apply (keeps_ret keeps_time keeps_time_refl).
  - apply (keeps_ret keeps_time keeps_time_refl).
Qed.

Lemma step_keeps_time e w : keeps_time w (step ObjectId toString e w).
Proof.
  destruct e as [req|c| |req|req|ms|fs]; simpl.
  - apply same_store_keeps_time, upgrade_keeps_store.
  - apply same_store_keeps_time, close_keeps_store.
  - apply same_store_keeps_time, tick_keeps_store.
  - apply post_api_timers_keeps_time.
  - apply post_api_timers_stop_keeps_time.
  - split; simpl; [lia|]. unfold Timely. simpl.
    apply Forall_impl. intros t. apply timely_at_mono. lia.
  - apply same_store_keeps_time. now split.
Qed.

Lemma run_keeps_time es w : keeps_time w (run ObjectId toString es w).
Proof.
  revert w. induction es as [|e es IH]; simpl; intros w; [apply keeps_time_refl|].
  eapply keeps_time_trans; [apply step_keeps_time|apply IH].
Qed.

End TimeFrames.

(** X14.  As long as the clock does not go back (between events time only
    moves forward), timers keep their place in time through every event: a
    timer never starts after the current instant, and a stopped timer ends
    between its start and the current instant, also when it is stopped
    again.  Hence no view built of a stored timer shows a negative progress
    or a negative duration. *)
Theorem timers_stay_timely
  (ObjectId : string -> option oid) (toString : oid -> string)
  (es : list Event) (w : World) :
  Timely w ->
  Timely (run ObjectId toString es w) /\
  forall t,
    In t (timers (db (run ObjectId toString es w))) ->
    match View.progress (view_at (now (run ObjectId toString es w)) t) with
    | Some p => (0 <= p)%Z
    | None => True
    end /\
    match View.duration (view_at (now (run ObjectId toString es w)) t) with
    | Some d => (0 <= d)%Z
    | None => True
    end.
Proof.
  intros HT. destruct (run_keeps_time ObjectId toString es w) as [Hn Hk].
  split; [now apply Hk|].
  intros t Hin. specialize (Hk HT). unfold Timely in Hk.
  rewrite Forall_forall in Hk. destruct (Hk t Hin) as [H1 H2].
  unfold view_at. destruct (Timer.end_ t); simpl; split; try exact I; lia.
Qed.

Lemma timers_stay_timely_witness :
  Timely online /\
  Timely (run hexObjectId hexString
            [EPostTimers alice_starts; EElapse 1000; EPostStop alice_stops; ETick] online).
Proof.
  assert (H : Timely online).
  { unfold Timely, online. simpl. constructor; [|constructor].
    unfold timely_at. simpl. lia. }
  split; [exact H|].
  apply (timers_stay_timely hexObjectId hexString
           [EPostTimers alice_starts; EElapse 1000; EPostStop alice_stops; ETick]
           online H).
Defined.

(** ** Accounts and sessions *)

Lemma sessions_insertOne_Ok doc w r w' :
  sessions_insertOne doc w = (Ok r, w') ->
  db w' = mkDb (users (db w)) (sessions (db w) ++ [doc]) (timers (db w)) (next_oid (db w)).
Proof.
  unfold sessions_insertOne, bind.
  destruct (external MongoError w) as [[[]|e] w1] eqn:E; [|discriminate].
  intros [= _ <-]. simpl. now rewrite (external_db _ _ _ _ E).
Qed.

Lemma users_findOne_quiet q w :
  faults w = [] -> users_findOne q w = (Ok (find q (users (db w))), w).
Proof.
  intros H. unfold users_findOne.
  now rewrite (bind_Ok _ _ _ _ _ (external_quiet MongoError w H)).
Qed.

Lemma sessions_findOne_quiet q w :
  faults w = [] -> sessions_findOne q w = (Ok (find q (sessions (db w))), w).
Proof.
  intros H. unfold sessions_findOne.
  now rewrite (bind_Ok _ _ _ _ _ (external_quiet MongoError w H)).
Qed.

Lemma createSession_quiet nanoid userId w :
  faults w = [] ->
  createSession nanoid userId w =
    (Ok nanoid,
     set_db (mkDb (users (db w)) (sessions (db w) ++ [Session.mk userId nanoid])
               (timers (db w)) (next_oid (db w))) w).
Proof.
  intros H. unfold createSession, sessions_insertOne.
  unfold bind at 1.
  now rewrite (bind_Ok _ _ _ _ _ (external_quiet MongoError w H)).
Qed.

Lemma deleteSession_quiet sessionId w :
  faults w = [] ->
  deleteSession sessionId w =
    (Ok tt,
     set_db (mkDb (users (db w))
               (remove_first (fun s => String.eqb (Session.sessionId s) sessionId)
                  (sessions (db w)))
               (timers (db w)) (next_oid (db w))) w).
Proof.
  intros H. unfold deleteSession, sessions_deleteOne.
  now rewrite (bind_Ok _ _ _ _ _ (external_quiet MongoError w H)).
Qed.

Lemma auth_quiet req w :
  faults w = [] ->
  auth req w =
    (Ok (match cookie "sessionId" (cookies req) with
         | None => None
         | Some sid =>
             if String.eqb sid "" then None
             else
               match find (fun s => String.eqb (Session.sessionId s) sid)
                       (sessions (db w)) with
               | None => None
               | Some s => find (fun u => N.eqb (User._id u) (Session.userId s))
                             (users (db w))
               end
         end), w).
Proof.
  intros H. unfold auth. destruct (cookie "sessionId" (cookies req)) as [sid|]; [|reflexivity].
  destruct (String.eqb sid ""); [reflexivity|].
  unfold findUserBySessionId.
  rewrite (bind_Ok _ _ _ _ _ (sessions_findOne_quiet _ w H)).
  destruct (find _ (sessions (db w))) as [s|]; [|reflexivity].
  now apply users_findOne_quiet.
Qed.

Lemma find_app_fresh {A} (q : A -> bool) l a :
  find q l = None -> find q (l ++ [a]) = if q a then Some a else None.
Proof.
  induction l as [|x l IH]; simpl; [reflexivity|].
  destruct (q x); [discriminate|exact IH].
Qed.

Lemma find_remove_first_unique {A B} (key : A -> B) (eqb : B -> B -> bool) l k :
  (forall a b, eqb a b = true <-> a = b) ->
  NoDup (map key l) ->
  find (fun a => eqb (key a) k) (remove_first (fun a => eqb (key a) k) l) = None.
Proof.
  intros Heq. induction l as [|a l IH]; simpl; intros Hnd; [reflexivity|].
  inversion Hnd as [|? ? Hn Hnd']; subst.
  destruct (eqb (key a) k) eqn:E; simpl.
  - apply Heq in E. subst k.
    destruct (find (fun a0 => eqb (key a0) (key a)) l) as [x|] eqn:F; [|reflexivity].
    apply find_some in F. destruct F as [Hin Hx]. apply Heq in Hx.
    exfalso. apply Hn. rewrite <- Hx. now apply in_map.
  - rewrite E. now apply IH.
Qed.

Lemma users_insertOne_quiet doc w :
  faults w = [] ->
  users_insertOne doc w =
    (Ok (next_oid (db w)),
     set_db (mkDb (users (db w) ++ [doc (next_oid (db w))]) (sessions (db w))
               (timers (db w)) (N.succ (next_oid (db w)))) w).
Proof.
  intros H. unfold users_insertOne.
  now rewrite (bind_Ok _ _ _ _ _ (external_quiet MongoError w H)).
Qed.

Section AccountFacts.
Variable hash : string -> string.
Variable toString : oid -> string.

Lemma createUser_quiet name pw w :
  faults w = [] ->
  createUser hash name pw w =
    match find (fun x => String.eqb (User.username x) name) (users (db w)) with
    | Some _ => (Ok None, w)
    | None =>
        (Ok (Some (next_oid (db w))),
         set_db (mkDb (users (db w) ++ [User.mk (next_oid (db w)) name (hash pw)])
                   (sessions (db w)) (timers (db w)) (N.succ (next_oid (db w)))) w)
    end.
Proof.
  intros Hf. unfold createUser, findUserByUsername.
  rewrite (bind_Ok _ _ _ _ _ (users_findOne_quiet _ w Hf)).
  destruct (find _ (users (db w))); [reflexivity|].
  now rewrite (bind_Ok _ _ _ _ _ (users_insertOne_quiet _ w Hf)).
Qed.

(** X15.  [/login] sets the session cookies only for a stored user of the
    given name whose stored password is the hash of the given one; it then
    stores one session, for that user and under the new session id, and the
    [userId] cookie is that user's id.  When it answers with the error
    redirect, the store is as it was.  Users and timers are never changed. *)
Theorem login_checks_the_password_hash
  (nanoid : string) (body : Credentials) (w w' : World) (r : Redirect) :
  login hash toString nanoid body w = (Ok r, w') ->
  (r = authError /\ db w' = db w) \/
  (exists u,
     In u (users (db w)) /\
     User.username u = username body /\
     User.password u = hash (password body) /\
     r = redirect "/" [("sessionId", nanoid); ("userId", toString (User._id u))] [] /\
     db w' = mkDb (users (db w)) (sessions (db w) ++ [Session.mk (User._id u) nanoid])
               (timers (db w)) (next_oid (db w))).
Proof.
  unfold login, findUserByUsername. unfold bind at 1.
  destruct (users_findOne _ w) as [[[u|]|e] w1] eqn:Eu; try discriminate.
  - apply users_findOne_Ok in Eu. destruct Eu as [Hu Hd].
    symmetry in Hu. apply find_some in Hu. destruct Hu as [Hin Hname].
    apply String.eqb_eq in Hname.
    destruct (String.eqb (User.password u) (hash (password body))) eqn:Ep; simpl.
    + apply String.eqb_eq in Ep. unfold createSession, bind.
      destruct (sessions_insertOne _ w1) as [[[]|e] w2] eqn:Es; [|discriminate].
      intros [= <- <-]. right. exists u.
      apply sessions_insertOne_Ok in Es. rewrite Hd in Es. now repeat split.
    + intros [= <- <-]. left. now split.
  - apply users_findOne_Ok in Eu. destruct Eu as [_ Hd].
    intros [= <- <-]. left. now split.
Qed.

(** X16.  The session a successful login issues authenticates its user.
    With no failure ahead, when the new session id is not empty and no
    stored session has it yet, a request that carries the cookies the login
    set is given by [auth()] a user with the id of the user who logged in. *)
Theorem login_then_auth
  (nanoid : string) (body : Credentials) (u : User.t) (req : Request) (w : World) :
  faults w = [] ->
  find (fun x => String.eqb (User.username x) (username body)) (users (db w)) = Some u ->
  User.password u = hash (password body) ->
  nanoid <> "" ->
  find (fun s => String.eqb (Session.sessionId s) nanoid) (sessions (db w)) = None ->
  cookies req = [("sessionId", nanoid); ("userId", toString (User._id u))] ->
  exists w' u',
    login hash toString nanoid body w
      = (Ok (redirect "/" (cookies req) []), w') /\
    auth req w' = (Ok (Some u'), w') /\
    User._id u' = User._id u /\ In u' (users (db w)).
Proof.
  intros Hf Hu Hp Hn Hfresh Hc.
  assert (Hin : exists u', find (fun x => N.eqb (User._id x) (User._id u)) (users (db w))
                           = Some u').
  { destruct (find (fun x => N.eqb (User._id x) (User._id u)) (users (db w))) eqn:E;
      [now eexists|].
    apply find_some in Hu. destruct Hu as [Hin _].
    apply (find_none _ _ E) in Hin. now rewrite N.eqb_refl in Hin. }
  destruct Hin as (u' & Hu').
  eexists. exists u'. split.
  - unfold login, findUserByUsername.
    rewrite (bind_Ok _ _ _ _ _ (users_findOne_quiet _ w Hf)). rewrite Hu.
    rewrite Hp, String.eqb_refl. simpl.
    rewrite (bind_Ok _ _ _ _ _ (createSession_quiet nanoid (User._id u) w Hf)).
    unfold ret. now rewrite Hc.
  - split.
    + rewrite auth_quiet by exact Hf. rewrite Hc. simpl.
      destruct (String.eqb nanoid "") eqn:E; [apply String.eqb_eq in E; contradiction|].
      rewrite (find_app_fresh _ _ _ Hfresh). simpl. rewrite String.eqb_refl.
      simpl. now rewrite Hu'.
    + apply find_some in Hu'. destruct Hu' as [H1 H2]. apply N.eqb_eq in H2.
      now split.
Qed.

(** X17.  [createUser] never stores a second user under a name that is
    taken: with no failure ahead it returns [null] and leaves the store as it
    was when the name exists, and otherwise appends one user with that name
    and the hash of the password, never the password itself, and returns its
    id.  User names that were distinct stay distinct. *)
Theorem createUser_keeps_names_distinct (name pw : string) (w : World) :
  faults w = [] ->
  match find (fun x => String.eqb (User.username x) name) (users (db w)) with
  | Some _ => createUser hash name pw w = (Ok None, w)
  | None =>
      fst (createUser hash name pw w) = Ok (Some (next_oid (db w))) /\
      users (db (snd (createUser hash name pw w)))
        = (users (db w) ++ [User.mk (next_oid (db w)) name (hash pw)])%list /\
      sessions (db (snd (createUser hash name pw w))) = sessions (db w) /\
      timers (db (snd (createUser hash name pw w))) = timers (db w)
  end /\
  (NoDup (map User.username (users (db w))) ->
   NoDup (map User.username (users (db (snd (createUser hash name pw w)))))).
Proof.
  intros Hf. rewrite (createUser_quiet name pw w Hf).
  destruct (find (fun x => String.eqb (User.username x) name) (users (db w)))
    as [x|] eqn:E.
  - split; [reflexivity|]. simpl. tauto.
  - simpl. split; [now repeat split|].
    intros Hnd. rewrite map_app. simpl.
    apply NoDup_app_remove_l with (l := []). simpl.
    rewrite <- (rev_involutive (map User.username (users (db w)) ++ [name])).
    apply NoDup_rev. rewrite rev_app_distr. simpl.
    constructor; [|now apply NoDup_rev].
    rewrite <- in_rev. intros Hin. apply in_map_iff in Hin.
    destruct Hin as (y & Hy & Hin).
    apply (find_none _ _ E) in Hin. simpl in Hin.
    rewrite Hy, String.eqb_refl in Hin. discriminate.
Qed.

(** X18.  A signup under a free name always logs the new user in: with no
    failure ahead the user is stored with the hash of the password, the
    password check that follows cannot fail, one session is stored under
    the new session id, and the cookies carry that session id and the new
    user's id.  A signup under a taken name changes nothing and answers
    with the error redirect. *)
Theorem signup_logs_the_new_user_in (nanoid : string) (body : Credentials) (w : World) :
  faults w = [] ->
  match find (fun x => String.eqb (User.username x) (username body)) (users (db w)) with
  | Some _ => signup hash toString nanoid body w = (Ok authError, w)
  | None =>
      fst (signup hash toString nanoid body w)
        = Ok (redirect "/"
                [("sessionId", nanoid); ("userId", toString (next_oid (db w)))] []) /\
      db (snd (signup hash toString nanoid body w))
        = mkDb (users (db w)
                ++ [User.mk (next_oid (db w)) (username body) (hash (password body))])
            (sessions (db w) ++ [Session.mk (next_oid (db w)) nanoid])
            (timers (db w)) (N.succ (next_oid (db w)))
  end.
Proof.
  intros Hf.
  pose proof (createUser_quiet (username body) (password body) w Hf) as Hcu.
  destruct (find (fun x => String.eqb (User.username x) (username body)) (users (db w)))
    as [x|] eqn:E.
  - unfold signup. now rewrite (bind_Ok _ _ _ _ _ Hcu).
  - assert (Hs : signup hash toString nanoid body w =
      (Ok (redirect "/"
             [("sessionId", nanoid); ("userId", toString (next_oid (db w)))] []),
       set_db (mkDb (users (db w)
                     ++ [User.mk (next_oid (db w)) (username body) (hash (password body))])
                 (sessions (db w) ++ [Session.mk (next_oid (db w)) nanoid])
                 (timers (db w)) (N.succ (next_oid (db w)))) w)).
    { unfold signup. rewrite (bind_Ok _ _ _ _ _ Hcu). unfold findUserByUsername.
      match goal with
      | |- bind (users_findOne ?q) _ ?w1 = _ =>
          rewrite (bind_Ok _ _ _ _ _ (users_findOne_quiet q w1 Hf))
      end.
      simpl. rewrite (find_app_fresh _ _ _ E). simpl.
      rewrite !String.eqb_refl. simpl.
      match goal with
      | |- bind (createSession ?n ?i) _ ?w1 = _ =>
          rewrite (bind_Ok _ _ _ _ _ (createSession_quiet n i w1 Hf))
      end.
      reflexivity. }
    rewrite Hs. now split.
Qed.

End AccountFacts.

(** X19.  [/logout] ends the session.  With no failure ahead, session ids
    distinct and a [sessionId] cookie that is a plain string (not of the
    form [j:<JSON>]), an authenticated logout deletes the session of the
    request and clears the [sessionId] cookie, and nothing else: after it the
    same cookies authenticate nobody, so both timer routes answer 401, while
    users, timers and the other sessions are untouched. *)
Theorem logout_ends_the_session
  (ObjectId : string -> option oid) (toString : oid -> string)
  (req : Request) (u : User.t) (sid : string) (w : World) :
  faults w = [] ->
  NoDup (map Session.sessionId (sessions (db w))) ->
  cookie "sessionId" (cookies req) = Some sid ->
  json_cookie sid = false ->
  auth req w = (Ok (Some u), w) ->
  exists w',
    logout req w = (Ok (redirect "/" [] ["sessionId"]), w') /\
    db w' = mkDb (users (db w))
              (remove_first (fun s => String.eqb (Session.sessionId s) sid)
                 (sessions (db w)))
              (timers (db w)) (next_oid (db w)) /\
    (forall s, In s (sessions (db w)) -> Session.sessionId s <> sid ->
               In s (sessions (db w'))) /\
    auth req w' = (Ok None, w') /\
    post_api_timers ObjectId toString req w' = (Ok (sendStatus 401), w') /\
    post_api_timers_stop ObjectId toString req w' = (Ok (sendStatus 401), w').
Proof.
  intros Hf Hnd Hc _ Ha. eexists.
  split.
  { unfold logout. rewrite (bind_Ok _ _ _ _ _ Ha). rewrite Hc.
    now rewrite (bind_Ok _ _ _ _ _ (deleteSession_quiet sid w Hf)). }
  split; [reflexivity|].
  split.
  { simpl. intros s Hin Hne.
    induction (sessions (db w)) as [|x l IH]; simpl in *; [tauto|].
    inversion Hnd as [|? ? _ Hnd']; subst.
    destruct (String.eqb (Session.sessionId x) sid) eqn:E.
    - destruct Hin as [->|Hin]; [|assumption].
      apply String.eqb_eq in E. contradiction.
    - destruct Hin as [->|Hin]; [now left|right; now apply IH]. }
  assert (Ha' : forall w1, faults w1 = [] ->
            sessions (db w1)
            = remove_first (fun s => String.eqb (Session.sessionId s) sid) (sessions (db w)) ->
            auth req w1 = (Ok None, w1)).
  { intros w1 Hf1 Hs. rewrite auth_quiet by exact Hf1. rewrite Hc.
    destruct (String.eqb sid ""); [reflexivity|].
    rewrite Hs.
    rewrite (find_remove_first_unique Session.sessionId String.eqb _ sid
               String.eqb_eq Hnd).
    reflexivity. }
  match goal with
  | |- auth req ?w1 = _ /\ _ => pose proof (Ha' w1 Hf eq_refl) as Hnone
  end.
  split; [exact Hnone|].
  unfold post_api_timers, post_api_timers_stop.
  rewrite !(bind_Ok _ _ _ _ _ Hnone). now split.
Qed.

Lemma login_checks_the_password_hash_witness :
  login table_hash hexString "n1" alice_logs_in online
  = (Ok (redirect "/" [("sessionId", "n1"); ("userId", alice_key)] []),
     snd (login table_hash hexString "n1" alice_logs_in online)) /\
  sessions (db (snd (login table_hash hexString "n1" alice_logs_in online)))
  = [Session.mk 7%N "s-alice"; Session.mk 8%N "s-bob"; Session.mk 7%N "n1"].
Proof.
  assert (E : login table_hash hexString "n1" alice_logs_in online
              = (Ok (redirect "/" [("sessionId", "n1"); ("userId", alice_key)] []),
                 snd (login table_hash hexString "n1" alice_logs_in online)))
    by reflexivity.
  split; [exact E|].
  destruct (login_checks_the_password_hash table_hash hexString "n1" alice_logs_in
              online _ _ E) as [[H _]|(u & _ & _ & _ & _ & H)].
  - discriminate H.
  - reflexivity.
Defined.

Lemma login_then_auth_witness :
  faults online = [] /\
  exists w' u',
    login table_hash hexString "n1" alice_logs_in online
      = (Ok (redirect "/"
               (cookies (mkRequest [("sessionId", "n1"); ("userId", hexString 7%N)] "" ""))
               []), w') /\
    auth (mkRequest [("sessionId", "n1"); ("userId", hexString 7%N)] "" "") w'
      = (Ok (Some u'), w') /\
    User._id u' = User._id alice /\ In u' (users (db online)).
Proof.
  split; [reflexivity|].
  apply (login_then_auth table_hash hexString "n1" alice_logs_in alice
           (mkRequest [("sessionId", "n1"); ("userId", hexString 7%N)] "" "") online);
    try reflexivity.
  discriminate.
Defined.

Lemma createUser_keeps_names_distinct_witness :
  faults online = [] /\
  createUser table_hash "alice" "password" online = (Ok None, online) /\
  users (db (snd (createUser table_hash "carol" "password" online)))
  = [alice; bob; User.mk 2%N "carol" "5e884898da28"].
Proof.
  split; [reflexivity|]. split.
  - apply (createUser_keeps_names_distinct table_hash "alice" "password" online eq_refl).
  - destruct (createUser_keeps_names_distinct table_hash "carol" "password" online eq_refl)
      as [(_ & H & _) _].
    rewrite H. reflexivity.
Defined.

Lemma signup_logs_the_new_user_in_witness :
  faults online = [] /\
  fst (signup table_hash hexString "n2" carol_signs_up online)
  = Ok (redirect "/"
          [("sessionId", "n2"); ("userId", "000000000000000000000002")] []).
Proof.
  split; [reflexivity|].
  destruct (signup_logs_the_new_user_in table_hash hexString "n2" carol_signs_up online
              eq_refl) as [H _].
  rewrite H. reflexivity.
Defined.

Lemma logout_ends_the_session_witness :
  faults online = [] /\
  exists w',
    logout alice_stops online = (Ok (redirect "/" [] ["sessionId"]), w') /\
    db w' = mkDb (users (db online))
              (remove_first (fun s => String.eqb (Session.sessionId s) "s-alice")
                 (sessions (db online)))
              (timers (db online)) (next_oid (db online)) /\
    (forall s, In s (sessions (db online)) -> Session.sessionId s <> "s-alice" ->
               In s (sessions (db w'))) /\
    auth alice_stops w' = (Ok None, w') /\
    post_api_timers hexObjectId hexString alice_stops w' = (Ok (sendStatus 401), w') /\
    post_api_timers_stop hexObjectId hexString alice_stops w' = (Ok (sendStatus 401), w').
Proof.
  split; [reflexivity|].
  apply (logout_ends_the_session hexObjectId hexString alice_stops alice "s-alice" online);
    try reflexivity.
  simpl. constructor; [simpl; intros [H|[]]; discriminate|].
  constructor; [intros []|constructor].
Defined.

(** ** Stopping a timer twice *)

Lemma auth_elsewhere req r w w1 :
  faults w = [] -> auth req w = (Ok r, w) ->
  faults w1 = [] ->
  users (db w1) = users (db w) -> sessions (db w1) = sessions (db w) ->
  auth req w1 = (Ok r, w1).
Proof.
  intros Hf Ha Hf1 Hu Hs.
  rewrite (auth_quiet req w Hf) in Ha. injection Ha as <-.
  rewrite (auth_quiet req w1 Hf1). now rewrite Hu, Hs.
Qed.

Section StopTwice.
Variable ObjectId : string -> option oid.
Variable toString : oid -> string.

(** The stop route when nothing fails, the caller's socket is registered
    and the caller owns a timer with the id. *)
Lemma stop_route_quiet req u i t c w :
  faults w = [] ->
  auth req w = (Ok (Some u), w) ->
  ObjectId (params_id req) = Some i ->
  ObjectId (toString (User._id u)) = Some (User._id u) ->
  Map_get (toString (User._id u)) (clients w) = Some c ->
  find (has_id_and_owner i (User._id u)) (timers (db w)) = Some t ->
  post_api_timers_stop ObjectId toString req w =
    (Ok (sendStatus 204),
     set_wire
       (wire w ++
        [(c, Msg.mk "all_timers"
               (map (view_at (now w))
                  (filter (owned_by (User._id u))
                     (snd (update_first (has_id_and_owner i (User._id u))
                             (stopped_at (now w)) (timers (db w)))))))])
       (set_db
          (set_timers
             (snd (update_first (has_id_and_owner i (User._id u))
                     (stopped_at (now w)) (timers (db w))))
             (db w)) w)).
Proof.
  intros Hf Ha Hi Ho Hc Hfind. unfold post_api_timers_stop.
  rewrite (bind_Ok _ _ _ _ _ Ha). unfold ObjectId_of. rewrite Hi, bind_ret_l.
  rewrite (bind_Ok _ _ _ _ _ (stopTimer_quiet_named i (User._id u) w Hf)).
  rewrite Hfind. cbn [present absent negb].
  match goal with
  | |- bind (sendAllTimersMsg _ _) _ ?w1 = _ =>
      rewrite (bind_Ok _ _ _ _ _
                 (sendAllTimersMsg_quiet ObjectId (toString (User._id u)) (User._id u) c w1
                    Hf Ho Hc))
  end.
  reflexivity.
Qed.

(** The stop route when the caller owns a timer with the id and has no
    socket: the timer is updated, then the push throws. *)
Lemma stop_route_without_socket req u i t w :
  faults w = [] ->
  auth req w = (Ok (Some u), w) ->
  ObjectId (params_id req) = Some i ->
  Map_get (toString (User._id u)) (clients w) = None ->
  find (has_id_and_owner i (User._id u)) (timers (db w)) = Some t ->
  throws (post_api_timers_stop ObjectId toString req w).
Proof.
  intros Hf Ha Hi Hc Hfind. unfold post_api_timers_stop, throws.
  rewrite (bind_Ok _ _ _ _ _ Ha). unfold ObjectId_of. rewrite Hi, bind_ret_l.
  rewrite (bind_Ok _ _ _ _ _ (stopTimer_quiet_named i (User._id u) w Hf)).
  rewrite Hfind. cbn [present absent negb].
  match goal with
  | |- context [bind (sendAllTimersMsg _ _) _ ?w1] =>
      destruct (sendAllTimersMsg_unregistered ObjectId (toString (User._id u)) w1 Hc)
        as (e & w2 & Hs & _);
      rewrite (bind_Throw _ _ _ _ _ Hs)
  end.
  now exists e.
Qed.

End StopTwice.

(** C2, as the code has it.  [stopTimer] selects by timer id and owner only.
    When the user owns a timer with that id, running or already stopped, the
    call sets its [end] to the current instant and returns [true], and
    it does so again when repeated; [stopTimer] itself sends nothing.  When
    the user owns no timer with that id, the call returns [false] and changes
    nothing, and the route answers 404 without a push.  What the route does
    after a successful stop depends on the owner's socket.  With no failure
    ahead, the owner's socket registered and the owner's id string read back
    by [ObjectId] as the owner's id, the route answers 204 and sends that
    socket one ["all_timers"] message, and when the same request is made
    again, at whatever later instant, it answers 204 again, sends a second
    message and overwrites [end] with that instant.  With no socket
    registered for the owner, the route throws after the update. *)
Theorem stopTimer_selects_by_id_and_owner
  (ObjectId : string -> option oid) (toString : oid -> string)
  (req : Request) (u : User.t) (i : oid) (w : World) :
  faults w = [] ->
  auth req w = (Ok (Some u), w) ->
  ObjectId (params_id req) = Some i ->
  match find (fun t => N.eqb (Timer._id t) i && N.eqb (Timer.userId t) (User._id u))
          (timers (db w)) with
  | Some t =>
      fst (stopTimer i (User._id u) w) = Ok true /\
      find (fun t => N.eqb (Timer._id t) i && N.eqb (Timer.userId t) (User._id u))
        (timers (db (snd (stopTimer i (User._id u) w))))
      = Some (Timer.mk (Timer._id t) (Timer.userId t) (Timer.description t)
                (Timer.start t) (Some (now w))) /\
      wire (snd (stopTimer i (User._id u) w)) = wire w /\
      fst (stopTimer i (User._id u) (snd (stopTimer i (User._id u) w))) = Ok true /\
      match Map_get (toString (User._id u)) (clients w) with
      | Some c =>
          ObjectId (toString (User._id u)) = Some (User._id u) ->
          forall d,
          exists w1 w2,
            post_api_timers_stop ObjectId toString req w = (Ok (sendStatus 204), w1) /\
            wire w1
            = (wire w ++
               [(c, Msg.mk "all_timers"
                      (map (view_at (now w))
                         (filter (owned_by (User._id u)) (timers (db w1)))))])%list /\
            find (fun t => N.eqb (Timer._id t) i && N.eqb (Timer.userId t) (User._id u))
              (timers (db w1))
            = Some (Timer.mk (Timer._id t) (Timer.userId t) (Timer.description t)
                      (Timer.start t) (Some (now w))) /\
            post_api_timers_stop ObjectId toString req (set_now d w1)
            = (Ok (sendStatus 204), w2) /\
            wire w2
            = (wire w1 ++
               [(c, Msg.mk "all_timers"
                      (map (view_at d)
                         (filter (owned_by (User._id u)) (timers (db w2)))))])%list /\
            find (fun t => N.eqb (Timer._id t) i && N.eqb (Timer.userId t) (User._id u))
              (timers (db w2))
            = Some (Timer.mk (Timer._id t) (Timer.userId t) (Timer.description t)
                      (Timer.start t) (Some d))
      | None => throws (post_api_timers_stop ObjectId toString req w)
      end
  | None =>
      stopTimer i (User._id u) w = (Ok false, w) /\
      post_api_timers_stop ObjectId toString req w =
        (Ok (status_send 404 ("Unknown timer ID: " ++ params_id req)), w)
  end.
Proof.
  intros Hf Ha Ho.
  pose proof (stopTimer_quiet_named i (User._id u) w Hf) as Hs.
  change (fun t => N.eqb (Timer._id t) i && N.eqb (Timer.userId t) (User._id u))
    with (has_id_and_owner i (User._id u)).
  pose proof (update_first_find (has_id_and_owner i (User._id u)) (stopped_at (now w))
                (timers (db w)) (fun t => eq_refl)) as Hfind.
  destruct (find (has_id_and_owner i (User._id u)) (timers (db w))) as [t|] eqn:E.
  - simpl in Hfind.
    split; [rewrite Hs; reflexivity|].
    split; [rewrite Hs; exact Hfind|].
    split; [rewrite Hs; reflexivity|].
    split.
    { rewrite Hs. simpl. rewrite stopTimer_quiet_named by exact Hf. simpl.
      now rewrite Hfind. }
    destruct (Map_get (toString (User._id u)) (clients w)) as [c|] eqn:Ec.
    + intros Hid d.
      pose proof (stop_route_quiet ObjectId toString req u i t c w Hf Ha Ho Hid Ec E) as R1.
      eexists. eexists. split; [exact R1|].
      split; [reflexivity|]. split; [exact Hfind|].
      match goal with
      | |- post_api_timers_stop _ _ _ (set_now d ?w1) = _ /\ _ =>
          assert (Ha' : auth req (set_now d w1) = (Ok (Some u), set_now d w1))
            by (apply (auth_elsewhere req (Some u) w (set_now d w1) Hf Ha Hf);
                reflexivity);
          pose proof (stop_route_quiet ObjectId toString req u i
                        (stopped_at (now w) t) c (set_now d w1)
                        Hf Ha' Ho Hid Ec Hfind) as R2
      end.
      split; [exact R2|]. split; [reflexivity|].
      simpl. rewrite update_first_find by reflexivity.
      simpl in Hfind. now rewrite Hfind.
    + apply (stop_route_without_socket ObjectId toString req u i t w Hf Ha Ho Ec E).
  - assert (Hst : stopTimer i (User._id u) w = (Ok false, w)).
    { rewrite Hs. rewrite (update_first_none _ _ _ E). simpl.
      now rewrite set_timers_same. }
    split; [exact Hst|].
    unfold post_api_timers_stop. rewrite (bind_Ok _ _ _ _ _ Ha).
    unfold ObjectId_of. rewrite Ho. rewrite bind_ret_l.
    now rewrite (bind_Ok _ _ _ _ _ Hst).
Qed.

Lemma stopTimer_selects_by_id_and_owner_witness :
  faults online = [] /\
  fst (stopTimer 1%N 7%N online) = Ok true /\
  fst (stopTimer 1%N 7%N (snd (stopTimer 1%N 7%N online))) = Ok true /\
  fst (post_api_timers_stop hexObjectId hexString alice_stops online) = Ok (sendStatus 204).
Proof.
  split; [reflexivity|].
  pose proof (stopTimer_selects_by_id_and_owner hexObjectId hexString
                alice_stops alice 1%N online eq_refl eq_refl eq_refl) as H.
  cbv beta iota delta [find timers db online store0 write_spec alice User._id Timer._id
                       Timer.userId N.eqb Pos.eqb andb] in H.
  destruct H as (H1 & _ & _ & H2 & H3).
  split; [exact H1|]. split; [exact H2|].
  change (Map_get (hexString (User._id alice)) (clients online)) with (Some 0) in H3.
  destruct (H3 eq_refl 0%Z) as (w1 & w2 & R1 & _).
  exact (f_equal fst R1).
Defined.

(** ** How far a tick gets *)


Section TickReach.
Variable ObjectId : string -> option oid.




End TickReach.



